(** * Marathon Production: a shallow embedding of [app.py]

    The development follows the layout of the source file:

    - [PyStr]     the few [str] / [re] operations the program uses;
    - [Serials]   [clean_serials], [validate_serials], [detect_product];
    - [Ledger]    [Statistics] and [BatchHistory], with the JSON files
                  they live in;
    - [Robot]     [MarathonRobot]: [emit], [ensure_browser], [cleanup],
                  [run_marathon], written in a small state-and-exception
                  monad whose oracle says which Playwright call raises;
    - [Server]    the [run_marathon] socket handler, its worker thread
                  [run_task], and the pool of worker threads;
    - [Samples]   concrete requests and remote sides;
    - [Routes]    the device table and the route that cleans and
                  validates;
    - [Sums]      the totals of the statistics and the bound of the
                  batch history;
    - [Verify]    [verify_serials_api] and the [verify_serials] socket
                  handler;
    - [Labels]    the grid of [generate_labels_pdf];
    - [Typing]    what a run types into the page, what [cleanup]
                  closes;
    - the facts, module by module, the properties of the
      specification, and further properties of the code at the end.

    Conventions of the embedding:

    - Text is ASCII text: [string] holds the bytes of a Python [str],
      and the case and whitespace functions are the ASCII fragments of
      [str.upper], [str.lower] and [str.strip].
    - Python integers are [Z] in the ledger and [nat] where they are
      lengths.
    - Every Playwright call that can raise is a [site]; the [oracle] of
      a run says for each site whether the call raises there and with
      which message.  Building a locator and reading [page.url] do not
      raise.
    - [emit_status] is fire-and-forget: it appends to the sink and does
      not raise.  The [logging] calls are left out.
    - Worker threads interleave at the grain of a call of
      [run_marathon]: a worker is started (its robot is built and the
      guard is passed), and later it finishes; other workers may start
      and finish in between. *)

From Stdlib Require Import String Ascii List ZArith Lia Bool.
From stdpp Require Import gmap strings list fin_maps pretty.

Local Open Scope string_scope.

(* ===================================================================== *)
(** * Python strings *)
(* ===================================================================== *)

Module PyStr.

Definition chars (s : string) : list ascii := list_ascii_of_string s.
Definition of_chars (l : list ascii) : string := string_of_list_ascii l.

Definition code (c : ascii) : nat := nat_of_ascii c.

Definition between (lo hi : nat) (c : ascii) : bool :=
  (lo <=? code c)%nat && (code c <=? hi)%nat.

Definition is_upper_letter : ascii -> bool := between 65 90.
Definition is_lower_letter : ascii -> bool := between 97 122.
Definition is_digit : ascii -> bool := between 48 57.

(** [str.isspace] on ASCII: TAB, LF, VT, FF, CR, FS, GS, RS, US, SPACE. *)
Definition is_space (c : ascii) : bool :=
  between 9 13 c || between 28 32 c.

Definition upper_char (c : ascii) : ascii :=
  if is_lower_letter c then ascii_of_nat (code c - 32) else c.

Definition lower_char (c : ascii) : ascii :=
  if is_upper_letter c then ascii_of_nat (code c + 32) else c.

(** [s.upper()], [s.lower()] *)
Definition upper (s : string) : string := of_chars (map upper_char (chars s)).
Definition lower (s : string) : string := of_chars (map lower_char (chars s)).

(** [s.startswith(p)] *)
Definition startswith (s p : string) : bool := String.prefix p s.

Fixpoint drop_spaces (l : list ascii) : list ascii :=
  match l with
  | c :: l' => if is_space c then drop_spaces l' else l
  | [] => []
  end.

(** [s.strip()] *)
Definition strip (s : string) : string :=
  of_chars (rev (drop_spaces (rev (drop_spaces (chars s))))).

(** [s.split(sep)] for a one-character separator: never empty, and an
    empty field stays an empty string. *)
Fixpoint split_go (sep : ascii) (cur : list ascii) (l : list ascii) : list string :=
  match l with
  | [] => [of_chars (rev cur)]
  | c :: l' =>
      if Ascii.eqb c sep then of_chars (rev cur) :: split_go sep [] l'
      else split_go sep (c :: cur) l'
  end.

Definition split (sep : ascii) (s : string) : list string :=
  split_go sep [] (chars s).

Definition newline : ascii := ascii_of_nat 10.

(** The one-character text "\n". *)
Definition LF_text : string := String newline EmptyString.

(** [sep.join(parts)] *)
Fixpoint join (sep : string) (parts : list string) : string :=
  match parts with
  | [] => ""
  | [p] => p
  | p :: rest => p ++ sep ++ join sep rest
  end.

Fixpoint contains_go (needle : string) (l : list ascii) : bool :=
  String.prefix needle (of_chars l) ||
  match l with
  | [] => false
  | _ :: l' => contains_go needle l'
  end.

(** [needle in s] *)
Definition contains (needle s : string) : bool := contains_go needle (chars s).

(** [len(s)] *)
Definition len (s : string) : nat := String.length s.

(** [str(n)] for a non-negative [int] *)
Definition str_of_nat (n : nat) : string := pretty (N.of_nat n).

(** The character class [[A-Za-z0-9._-]] of both regular expressions. *)
Definition serial_char (c : ascii) : bool :=
  is_upper_letter c || is_lower_letter c || is_digit c
  || Ascii.eqb c "."%char || Ascii.eqb c "_"%char || Ascii.eqb c "-"%char.

(** Longest run of class characters at the head of [l], and what follows. *)
Fixpoint span_serial (l : list ascii) : list ascii * list ascii :=
  match l with
  | c :: l' =>
      if serial_char c
      then let '(run, rest) := span_serial l' in (c :: run, rest)
      else ([], l)
  | [] => ([], [])
  end.

(** [re.match(r'^[A-Za-z0-9._-]+$', s)] as a truth value.  The greedy
    run must be non-empty, and [$] accepts the end of the text or the
    position right before one final line feed. *)
Definition match_serial (s : string) : bool :=
  let '(run, rest) := span_serial (chars s) in
  match run, rest with
  | [], _ => false
  | _ :: _, [] => true
  | _ :: _, [c] => Ascii.eqb c newline
  | _ :: _, _ => false
  end.

(** [re.search(r"[?&]s=([A-Za-z0-9._-]+)", line)]: group 1 of the
    leftmost match, [None] without a match. *)
Fixpoint search_s_param (l : list ascii) : option string :=
  match l with
  | [] => None
  | c :: l' =>
      let here :=
        if Ascii.eqb c "?"%char || Ascii.eqb c "&"%char then
          match l' with
          | c1 :: c2 :: tl =>
              if Ascii.eqb c1 "s"%char && Ascii.eqb c2 "="%char then
                match fst (span_serial tl) with
                | [] => None
                | run => Some (of_chars run)
                end
              else None
          | _ => None
          end
        else None in
      match here with
      | Some g => Some g
      | None => search_s_param l'
      end
  end.

End PyStr.

(* ===================================================================== *)
(** * Serial validation *)
(* ===================================================================== *)

Module Serials.
Import PyStr.

(** [clean_serials(raw_text)] *)
Definition clean_line (line : string) : option string :=
  let line := strip line in
  if String.eqb line "" then None
  else
    let serial :=
      match search_s_param (chars line) with
      | Some g => g
      | None => line
      end in
    if negb (String.eqb serial "") && (2 <=? len serial)%nat
    then Some serial else None.

Definition clean_serials (raw_text : string) : list string :=
  omap clean_line (split newline raw_text).

(** The [results] dictionary of [validate_serials]. *)
Record results := mk_results {
  valid : list string;
  duplicates : list string;
  invalid : list (string * string)
}.

(** One turn of the [for serial in serials] loop, on the pair of the
    [results] dictionary and the [seen] set. *)
Definition validate_one (acc : results * gset string) (serial : string)
  : results * gset string :=
  let '(r, seen) := acc in
  let serial := strip serial in
  if String.eqb serial "" then acc
  else if decide (serial ∈ seen) then
    (mk_results (valid r) (duplicates r ++ [serial]) (invalid r), seen)
  else
    let seen := seen ∪ {[ serial ]} in
    if (len serial <? 2)%nat then
      (mk_results (valid r) (duplicates r) (invalid r ++ [(serial, "Too short")]), seen)
    else if (50 <? len serial)%nat then
      (mk_results (valid r) (duplicates r) (invalid r ++ [(serial, "Too long")]), seen)
    else if negb (match_serial serial) then
      (mk_results (valid r) (duplicates r) (invalid r ++ [(serial, "Invalid characters")]), seen)
    else
      (mk_results (valid r ++ [serial]) (duplicates r) (invalid r), seen).

(** [validate_serials(serials)] *)
Definition validate_serials (serials : list string) : results :=
  fst (fold_left validate_one serials (mk_results [] [] [], ∅)).

(** The [patterns] table of [detect_product], in source order. *)
Definition patterns : list (string * list string) :=
  [ ("HEX-MOD-DHT", ["HEX-MOD-DHT"; "HEXMODDHT"]);
    ("HEX-MOD-LHT", ["HEX-MOD-LHT"; "HEXMODLHT"]);
    ("HEX-MOD-SHT", ["HEX-MOD-SHT"; "HEXMODSHT"]);
    ("HEX-MOD-SDP", ["HEX-MOD-SDP"; "HEXMODSDP"]);
    ("HEX-MOD-ULT", ["HEX-MOD-ULT"; "HEXMODULT"]);
    ("HEX-T-C", ["HEX-T-C"; "HEXTC"]);
    ("HEX-T-R", ["HEX-T-R"; "HEXTR"]);
    ("HEX-P", ["HEX-P"; "HEXP"]);
    ("HEX-N", ["HEX-N"; "HEXN"]);
    ("HEX-W", ["HEX-W"; "HEXW"]);
    ("HEX-G", ["HEX-G"; "HEXG"]);
    ("HEX-L-S", ["HEX-L-S"; "HEXLS"]);
    ("HEX-L-Z", ["HEX-L-Z"; "HEXLZ"]) ].

(** The two nested loops: the first prefix that matches returns. *)
Fixpoint scan_patterns (serial_upper : string)
         (table : list (string * list string)) : option string :=
  match table with
  | [] => None
  | (product, prefixes) :: table' =>
      if existsb (startswith serial_upper) prefixes
      then Some product
      else scan_patterns serial_upper table'
  end.

(** [detect_product(serial)] *)
Definition detect_product (serial : string) : option string :=
  scan_patterns (upper serial) patterns.

End Serials.

(* ===================================================================== *)
(** * The run ledger: [Statistics] and [BatchHistory] *)
(* ===================================================================== *)

Module Ledger.

(** A JSON file on disk.  [load] falls back to its default both when
    the file does not exist and when reading it raises. *)
Inductive file (A : Type) : Type :=
| Missing
| Garbled
| Holds (data : A).
Arguments Missing {A}.
Arguments Garbled {A}.
Arguments Holds {A} data.

(** What an attempt to write the file does: [open(..., 'w')] may be
    refused (nothing changes), or the dump may stop half way (the
    truncated file no longer parses); [save] swallows both errors. *)
Inductive write : Type := Written | Refused | Torn.

Definition load {A} (default : A) (f : file A) : A :=
  match f with
  | Holds data => data
  | Missing | Garbled => default
  end.

Definition save {A} (w : write) (data : A) (f : file A) : file A :=
  match w with
  | Written => Holds data
  | Refused => f
  | Torn => Garbled
  end.

(** One entry of [data['daily']]. *)
Record day := Day {
  serials : Z;
  batches : Z;
  success : Z;
  errors : Z
}.

Record statistics := Statistics {
  daily : gmap string day;
  products : gmap string Z;
  total_serials : Z;
  total_batches : Z;
  success_count : Z;
  error_count : Z
}.

Definition empty_day : day := Day 0 0 0 0.

(** The dictionary [Statistics.load] returns without a readable file. *)
Definition empty_statistics : statistics := Statistics ∅ ∅ 0 0 0 0.

Definition Statistics_load (f : file statistics) : statistics :=
  load empty_statistics f.

Definition Statistics_save (w : write) (data : statistics)
           (f : file statistics) : file statistics :=
  save w data f.

Definition bump (flag : bool) (n : Z) : Z := if flag then (n + 1)%Z else n.

(** The in-memory part of [Statistics.record_batch]: [today] is the
    date string the clock gives. *)
Definition record_in (today : string) (serial_count : Z) (product : string)
           (ok : bool) (data : statistics) : statistics :=
  let d := default empty_day (daily data !! today) in
  let d := Day (serials d + serial_count) (batches d + 1)
               (bump ok (success d)) (bump (negb ok) (errors d)) in
  let p := default 0%Z (products data !! product) in
  Statistics (<[today := d]> (daily data))
             (<[product := (p + serial_count)%Z]> (products data))
             (total_serials data + serial_count)
             (total_batches data + 1)
             (bump ok (success_count data))
             (bump (negb ok) (error_count data)).

(** [Statistics.record_batch(serial_count, product, success)] *)
Definition record_batch (today : string) (w : write) (serial_count : Z)
           (product : string) (ok : bool) (f : file statistics)
  : file statistics :=
  Statistics_save w (record_in today serial_count product ok (Statistics_load f)) f.

(** [Statistics.get_today()] *)
Definition get_today (today : string) (f : file statistics) : day :=
  default empty_day (daily (Statistics_load f) !! today).

(** One entry of the batch history. *)
Record batch := Batch {
  timestamp : string;
  batch_serials : list string;
  count : nat;
  product_of : string;
  succeeded : bool
}.

Definition MAX_BATCHES : nat := 50.

(** [BatchHistory.add(serials, product, success)] *)
Definition BatchHistory_add (now : string) (w : write) (sns : list string)
           (product : string) (ok : bool) (f : file (list batch))
  : file (list batch) :=
  let history := load [] f in
  let b := Batch now sns (length sns) product ok in
  save w (take MAX_BATCHES (b :: history)) f.

(** One call of [record_batch]: its arguments, and what the clock
    and the disk do during it. *)
Record booking := Booking {
  booked_on : string;
  booked_write : write;
  booked_count : Z;
  booked_product : string;
  booked_ok : bool
}.

Definition book (f : file statistics) (c : booking) : file statistics :=
  record_batch (booked_on c) (booked_write c) (booked_count c)
               (booked_product c) (booked_ok c) f.

(** A sequence of [record_batch] calls on the statistics file. *)
Definition record_batches (cs : list booking) (f : file statistics)
  : file statistics :=
  fold_left book cs f.

(** The counting invariant of a statistics dictionary. *)
Definition counted (data : statistics) : Prop :=
  total_batches data = (success_count data + error_count data)%Z /\
  forall (d : string) (b : day),
    daily data !! d = Some b -> batches b = (success b + errors b)%Z.

End Ledger.

(* ===================================================================== *)
(** * Browser automation: [MarathonRobot] *)
(* ===================================================================== *)

Module Robot.
Import PyStr.

Definition LOGIN_URL : string := "https://hexmodal.odoo.com/web/login".
Definition STARTING_URL : string :=
  "https://hexmodal.odoo.com/web#action=510&model=mrp.production&view_type=list&cids=1&menu_id=324".

(** ** What the robot talks to *)

(** The [status] argument of [emit]: "info", "success", "error". *)
Inductive status : Type := Info | Success | Error.

(** One message handed to [emit_status]. *)
Record event := Event { message : string; severity : status }.

(** Playwright objects are known by a number given at creation. *)
Definition handle : Type := nat.

Inductive kind : Type := Engine | Browser | Context | Page.

(** Creations that succeeded, and calls of [close()] / [stop()]
    (logged when the call is made, whether or not it then raises). *)
Inductive op : Type :=
| Created (k : kind) (h : handle)
| Closing (k : kind) (h : handle).

(** Every place of the class where a Playwright call is made. *)
Inductive site : Type :=
| SyncPlaywrightStart | ChromiumLaunch | NewContext | NewPage
| S1_goto | S1_wait | S1_fill_login | S1_fill_password | S1_submit | S1_wait_submit
| S2_goto | S2_wait
| S3_wait_for | S3_click | S3_wait
| S4_wait_for | S4_click | S4_fill | S4_wait | S4_press | S4_wait_enter
| S5_click | S5_fill | S5_press | S5_wait
| S6_click | S6_wait
| S7_wait_for | S7_click | S7_fallback_click | S7_wait
| S8_wait_for | S8_click | S8_fill | S8_wait
| S9_click | S9_wait
| S10_wait_for | S10_click | S10_wait
| Dialog_wait_for | Dialog_click | Dialog_wait
| PageClose | ContextClose | BrowserClose | PlaywrightStop.

(** What the remote side does during one run: which call raises (with
    the text of the exception), and what [page.url] reads after the
    login page is loaded and after the login form is submitted. *)
Record oracle := Oracle {
  raises : site -> option string;
  url_after_goto : string;
  url_after_submit : string
}.

(** One thing a run does to the outside. *)
Inductive entry : Type :=
| Said (e : event)                   (* a message handed to [emit_status] *)
| Called (s : site) (arg : string)   (* a page call, with its text argument *)
| Did (x : op).

(** Everything outside the robot object that a run touches: what has
    been done so far, in the order it was done, and the number of the
    next Playwright object. *)
Record world := World {
  history : list entry;
  fresh : handle
}.

Fixpoint events (l : list entry) : list event :=
  match l with
  | [] => []
  | Said e :: l' => e :: events l'
  | _ :: l' => events l'
  end.

Fixpoint page_calls (l : list entry) : list (site * string) :=
  match l with
  | [] => []
  | Called s arg :: l' => (s, arg) :: page_calls l'
  | _ :: l' => page_calls l'
  end.

Fixpoint operations (l : list entry) : list op :=
  match l with
  | [] => []
  | Did x :: l' => x :: operations l'
  | _ :: l' => operations l'
  end.

(** What [emit_status] received, the page calls made, and the
    creations and closings, each in order. *)
Definition sink (w : world) : list event := events (history w).
Definition calls (w : world) : list (site * string) := page_calls (history w).
Definition ops (w : world) : list op := operations (history w).

(** The attributes of a [MarathonRobot]. *)
Record robot := RobotObj {
  playwright : option handle;
  browser : option handle;
  is_running : bool
}.

(** [MarathonRobot.__init__] *)
Definition MarathonRobot : robot := RobotObj None None false.

(** The state [run_marathon] works on: the object, the outside, and
    its local variables [context], [page] and [success]. *)
Record frame := Frame {
  self : robot;
  outside : world;
  context : option handle;
  page : option handle;
  success : bool
}.

(** ** The monad: state, exceptions, early [return] *)

Inductive outcome (A : Type) : Type :=
| Normal (a : A)
| Raise (e : string)
| Return (b : bool).
Arguments Normal {A} a.
Arguments Raise {A} e.
Arguments Return {A} b.

Definition M (A : Type) : Type := frame -> outcome A * frame.

#[global] Instance M_ret : MRet M := fun A a f => (Normal a, f).

#[global] Instance M_bind : MBind M := fun A B k m f =>
  match m f with
  | (Normal a, f') => k a f'
  | (Raise e, f') => (Raise e, f')
  | (Return b, f') => (Return b, f')
  end.

Definition get : M frame := fun f => (Normal f, f).

(** [return b] inside the [try] block *)
Definition return_ {A} (b : bool) : M A := fun f => (Return b, f).

(** [try: m  except: h] -- an early [return] is not an exception. *)
Definition try_except {A} (m : M A) (h : string -> M A) : M A := fun f =>
  match m f with
  | (Raise e, f') => h e f'
  | r => r
  end.

(** [try: m  finally: fin] *)
Definition try_finally {A} (m : M A) (fin : M unit) : M A := fun f =>
  let '(r, f') := m f in
  match fin f' with
  | (Normal _, f'') => (r, f'')
  | (Raise e, f'') => (Raise e, f'')
  | (Return b, f'') => (Return b, f'')
  end.

(** [pass] *)
Definition pass : M unit := mret tt.

(** ** Primitive effects *)

(** Append to the history; nothing else moves. *)
Definition extend (es : list entry) (f : frame) : frame :=
  Frame (self f)
        (World (history (outside f) ++ es) (fresh (outside f)))
        (context f) (page f) (success f).

Definition take_handle (f : frame) : frame :=
  Frame (self f)
        (World (history (outside f)) (S (fresh (outside f))))
        (context f) (page f) (success f).

(** [self.emit(message, status)] *)
Definition emit (message : string) (st : status) : M unit := fun f =>
  (Normal tt, extend [Said (Event message st)] f).

(** A call on the page or on a locator. *)
Definition call (o : oracle) (s : site) (arg : string) : M unit := fun f =>
  (match raises o s with None => Normal tt | Some e => Raise e end,
   extend [Called s arg] f).

(** A call that hands back a new Playwright object. *)
Definition create (o : oracle) (s : site) (k : kind) : M handle := fun f =>
  match raises o s with
  | Some e => (Raise e, f)
  | None =>
      let h := fresh (outside f) in
      (Normal h, take_handle (extend [Did (Created k h)] f))
  end.

(** [close()] on a page, context or browser; [stop()] on the engine. *)
Definition close (o : oracle) (s : site) (k : kind) (h : handle) : M unit := fun f =>
  (match raises o s with None => Normal tt | Some e => Raise e end,
   extend [Did (Closing k h)] f).

Definition set_self (r : robot) : M unit := fun f =>
  (Normal tt, Frame r (outside f) (context f) (page f) (success f)).
Definition set_context (c : option handle) : M unit := fun f =>
  (Normal tt, Frame (self f) (outside f) c (page f) (success f)).
Definition set_page (p : option handle) : M unit := fun f =>
  (Normal tt, Frame (self f) (outside f) (context f) p (success f)).
Definition set_success (b : bool) : M unit := fun f =>
  (Normal tt, Frame (self f) (outside f) (context f) (page f) b).

Definition set_playwright (p : option handle) : M unit :=
  f ← get; set_self (RobotObj p (browser (self f)) (is_running (self f))).
Definition set_browser (b : option handle) : M unit :=
  f ← get; set_self (RobotObj (playwright (self f)) b (is_running (self f))).
Definition set_is_running (b : bool) : M unit :=
  f ← get; set_self (RobotObj (playwright (self f)) (browser (self f)) b).

(** ** [ensure_browser] and [cleanup] *)

Definition ensure_browser (o : oracle) : M unit :=
  f ← get;
  match playwright (self f) with
  | None =>
      emit "Starting browser engine..." Info ;;
      h ← create o SyncPlaywrightStart Engine;
      set_playwright (Some h)
  | Some _ => pass
  end ;;
  f ← get;
  match browser (self f) with
  | None =>
      emit "Launching headless browser..." Info ;;
      h ← create o ChromiumLaunch Browser;
      set_browser (Some h)
  | Some _ => pass
  end.

Definition cleanup (o : oracle) : M unit :=
  try_finally
    (try_except
       (f ← get;
        match browser (self f) with
        | Some b => close o BrowserClose Browser b
        | None => pass
        end ;;
        match playwright (self f) with
        | Some p => close o PlaywrightStop Engine p
        | None => pass
        end)
       (fun _ => pass))
    (set_browser None ;; set_playwright None).

(** ** [run_marathon] *)

Definition LF : string := LF_text.

(** The blocks of the [try] body, cut at the source's [# Step k]
    comments.  Each block starts with its own announcement. *)

Definition step1 (o : oracle) (odoo_email odoo_password : string) : M unit :=
  emit "📍 Step 1/10: Logging into Odoo..." Info ;;
  call o S1_goto LOGIN_URL ;;
  call o S1_wait "2000" ;;
  (if contains "login" (lower (url_after_goto o)) then
     call o S1_fill_login odoo_email ;;
     call o S1_fill_password odoo_password ;;
     call o S1_submit "button[type='submit']" ;;
     call o S1_wait_submit "3000" ;;
     if contains "login" (lower (url_after_submit o)) then
       emit "❌ Login failed - check credentials" Error ;;
       return_ false
     else pass
   else pass) ;;
  emit "✓ Logged in successfully" Info.

Definition step2 (o : oracle) : M unit :=
  emit "📍 Step 2/10: Loading Manufacturing Orders..." Info ;;
  call o S2_goto STARTING_URL ;;
  call o S2_wait "2000".

Definition step3 (o : oracle) : M unit :=
  emit "📍 Step 3/10: Creating new production..." Info ;;
  call o S3_wait_for "button.o_list_button_add" ;;
  call o S3_click "button.o_list_button_add" ;;
  call o S3_wait "1500".

Definition step4 (o : oracle) (product : string) : M unit :=
  emit ("📍 Step 4/10: Setting product to " ++ product ++ "...") Info ;;
  call o S4_wait_for "div[name='product_id'] input" ;;
  call o S4_click "div[name='product_id'] input" ;;
  call o S4_fill product ;;
  call o S4_wait "1000" ;;
  call o S4_press "Enter" ;;
  call o S4_wait_enter "2000".

Definition step5 (o : oracle) (quantity : nat) : M unit :=
  emit ("📍 Step 5/10: Setting quantity to " ++ str_of_nat quantity ++ "...") Info ;;
  call o S5_click "div[name='product_qty'] input" ;;
  call o S5_fill (str_of_nat quantity) ;;
  call o S5_press "Enter" ;;
  call o S5_wait "2000".

Definition step6 (o : oracle) : M unit :=
  emit "📍 Step 6/10: Confirming order..." Info ;;
  call o S6_click "button:has-text('Confirm')" ;;
  call o S6_wait "3000".

Definition step7 (o : oracle) : M unit :=
  emit "📍 Step 7/10: Opening serial numbers..." Info ;;
  try_except
    (call o S7_wait_for "button:has-text('Register Production'), button:has-text('Open')" ;;
     call o S7_click "button:has-text('Register Production'), button:has-text('Open')")
    (fun _ => call o S7_fallback_click "button:has-text('Open')") ;;
  call o S7_wait "2000".

Definition step8 (o : oracle) (serials_text : string) : M unit :=
  emit "📍 Step 8/10: Entering serial numbers..." Info ;;
  call o S8_wait_for "textarea[name='lot_name'], textarea.o_input" ;;
  call o S8_click "textarea[name='lot_name'], textarea.o_input" ;;
  call o S8_fill serials_text ;;
  call o S8_wait "1000".

Definition step9 (o : oracle) : M unit :=
  emit "📍 Step 9/10: Generating serial numbers..." Info ;;
  call o S9_click "button:has-text('Generate')" ;;
  call o S9_wait "2000".

(** Step 10, with the confirmation dialog that follows it. *)
Definition step10 (o : oracle) : M unit :=
  emit "📍 Step 10/10: Marking as done..." Info ;;
  try_except
    (call o S10_wait_for "button:has-text('Mark as Done'), button:has-text('Done')" ;;
     call o S10_click "button:has-text('Mark as Done'), button:has-text('Done')" ;;
     call o S10_wait "2000")
    (fun _ => pass) ;;
  try_except
    (call o Dialog_wait_for "button:has-text('Apply'), button.btn-primary:has-text('OK')" ;;
     call o Dialog_click "button:has-text('Apply'), button.btn-primary:has-text('OK')" ;;
     call o Dialog_wait "2000")
    (fun _ => pass).

(** The arguments of [run_marathon]. *)
Record request := Request {
  product : string;
  serials : list string;
  odoo_email : string;
  odoo_password : string
}.

(** Block number [k] of the workflow, [1 <= k <= 10]. *)
Definition step (o : oracle) (q : request) (k : nat) : M unit :=
  let quantity := length (serials q) in
  let serials_text := join LF (serials q) in
  match k with
  | 1 => step1 o (odoo_email q) (odoo_password q)
  | 2 => step2 o
  | 3 => step3 o
  | 4 => step4 o (product q)
  | 5 => step5 o quantity
  | 6 => step6 o
  | 7 => step7 o
  | 8 => step8 o serials_text
  | 9 => step9 o
  | 10 => step10 o
  | _ => pass
  end.

(** The head of the [try] body: engine, browser, context, page. *)
Definition acquire (o : oracle) : M unit :=
  ensure_browser o ;;
  c ← create o NewContext Context;
  set_context (Some c) ;;
  p ← create o NewPage Page;
  set_page (Some p).

(** The ten steps in a row. *)
Definition workflow (o : oracle) (q : request) : M unit :=
  step o q 1 ;; step o q 2 ;; step o q 3 ;; step o q 4 ;; step o q 5 ;;
  step o q 6 ;; step o q 7 ;; step o q 8 ;; step o q 9 ;; step o q 10.

Definition try_block (o : oracle) (q : request) : M unit :=
  acquire o ;;
  workflow o q ;;
  set_success true ;;
  emit "✅ Marathon completed successfully!" Success.

(** [except Exception as e] *)
Definition except_block (e : string) : M unit :=
  emit ("❌ Error: " ++ e) Error.

Definition finally_block (o : oracle) : M unit :=
  set_is_running false ;;
  try_except
    (f ← get;
     match page f with
     | Some p => close o PageClose Page p
     | None => pass
     end ;;
     match context f with
     | Some c => close o ContextClose Context c
     | None => pass
     end)
    (fun _ => pass).

(** What a method call gives its caller. *)
Inductive returned (A : Type) : Type :=
| Value (a : A)
| Exception (e : string).
Arguments Value {A} a.
Arguments Exception {A} e.

(** The frame of a call that passed the guard: the flag is set and
    the locals are initialised. *)
Definition enter (r : robot) (w : world) : frame :=
  Frame (RobotObj (playwright r) (browser r) true) w None None false.

(** The guarded part of [run_marathon], run on that frame. *)
Definition guarded (o : oracle) (q : request) : M unit :=
  try_finally
    (try_except (try_block o q) except_block)
    (finally_block o).

(** The value handed back once the guarded part is over. *)
Definition leave (res : outcome unit) (f : frame) : returned bool * robot * world :=
  (match res with
   | Normal _ => Value (success f)
   | Return b => Value b
   | Raise e => Exception e
   end, self f, outside f).

(** [robot.run_marathon(product, serials, odoo_email, odoo_password)] *)
Definition run_marathon (o : oracle) (q : request) (r : robot) (w : world)
  : returned bool * robot * world :=
  if is_running r then (Value false, r, w)
  else
    let '(res, f) := guarded o q (enter r w) in
    leave res f.

(** [robot.cleanup()] seen from the caller. *)
Definition run_cleanup (o : oracle) (r : robot) (w : world) : robot * world :=
  let f := snd (cleanup o (Frame r w None None false)) in
  (self f, outside f).

(** ** Reading a block off a blank frame *)

Definition blank : frame := Frame MarathonRobot (World [] 0) None None false.

(** How a block ends and what it does to the outside. *)
Definition fate {A} (m : M A) : outcome A := fst (m blank).
Definition told {A} (m : M A) : list entry := history (outside (snd (m blank))).

(** What a block emits, and which page calls it makes. *)
Definition said {A} (m : M A) : list event := events (told m).
Definition did {A} (m : M A) : list (site * string) := page_calls (told m).

(** A block that only emits and makes page calls, the same ones from
    every frame. *)
Definition oblivious {A} (m : M A) : Prop :=
  (forall f, m f = (fate m, extend (told m) f)) /\ operations (told m) = [].

(** [behaves m r es]: from every frame, [m] ends as [r] after adding
    [es] to the history, and does nothing else. *)
Definition behaves {A} (m : M A) (r : outcome A) (es : list entry) : Prop :=
  forall f, m f = (r, extend es f).

Definition completes (o : oracle) (q : request) (k : nat) : Prop :=
  fate (step o q k) = Normal tt.


(** The part of the resources the run has to create goes through. *)
Definition acquires (o : oracle) (r : robot) : Prop :=
  fst (acquire o (enter r (outside blank))) = Normal tt.

(** ** The events of a run, by name *)

Definition starting : event := Event "Starting browser engine..." Info.
Definition launching : event := Event "Launching headless browser..." Info.

(** The notices of [ensure_browser] for the handles robot [r] lacks. *)
Definition notices (r : robot) : list event :=
  match playwright r with Some _ => [] | None => [starting] end ++
  match browser r with Some _ => [] | None => [launching] end.

(** The announcement that opens step [k]. *)
Definition announce (q : request) (k : nat) : event :=
  Event
    match k with
    | 1 => "📍 Step 1/10: Logging into Odoo..."
    | 2 => "📍 Step 2/10: Loading Manufacturing Orders..."
    | 3 => "📍 Step 3/10: Creating new production..."
    | 4 => "📍 Step 4/10: Setting product to " ++ product q ++ "..."
    | 5 => "📍 Step 5/10: Setting quantity to "
             ++ str_of_nat (length (serials q)) ++ "..."
    | 6 => "📍 Step 6/10: Confirming order..."
    | 7 => "📍 Step 7/10: Opening serial numbers..."
    | 8 => "📍 Step 8/10: Entering serial numbers..."
    | 9 => "📍 Step 9/10: Generating serial numbers..."
    | 10 => "📍 Step 10/10: Marking as done..."
    | _ => ""
    end Info.

Definition logged_in : event := Event "✓ Logged in successfully" Info.
Definition login_failed : event := Event "❌ Login failed - check credentials" Error.
Definition completed : event := Event "✅ Marathon completed successfully!" Success.
Definition error_event (e : string) : event := Event ("❌ Error: " ++ e) Error.

(** The announcements of steps [1..k], with the login confirmation
    that closes step 1 once a second step is reached. *)
Definition trail (q : request) (k : nat) : list event :=
  match k with
  | 0 => []
  | 1 => [announce q 1]
  | S k' => announce q 1 :: logged_in :: map (announce q) (seq 2 k')
  end.




(** The three components of what [run_marathon] gives back. *)
Definition result_of (x : returned bool * robot * world) : returned bool := fst (fst x).
Definition robot_of (x : returned bool * robot * world) : robot := snd (fst x).
Definition world_of (x : returned bool * robot * world) : world := snd x.

(** The events [ensure_browser] emits when the run starts on robot
    [r], up to the point where acquisition ends. *)
Definition acquire_notices (o : oracle) (r : robot) : list event :=
  sink (outside (snd (acquire o (enter r (outside blank))))).

End Robot.

(* ===================================================================== *)
(** * The socket handler and its worker threads *)
(* ===================================================================== *)

Module Server.
Import PyStr Serials Ledger Robot.

(** The [data] dictionary of a [run_marathon] socket event, read with
    [data.get(key, '')]. *)
Record payload := Payload {
  serials_text : string;
  product_field : string;
  email_field : string;
  password_field : string
}.

(** What the handler and the worker send besides the robot's own
    status events. *)
Inductive message : Type :=
| Status (e : event)
| MarathonComplete (ok : bool) (detail : option (nat * string)).

(** The checks of [handle_marathon]: the replies of a refused event,
    or the arguments the worker thread is started with. *)
Definition handle_marathon (data : payload) : list message + request :=
  let serials := clean_serials (serials_text data) in
  match serials with
  | [] =>
      inl [Status (Event "No valid serials provided" Error);
           MarathonComplete false None]
  | first :: _ =>
      let product :=
        if String.eqb (product_field data) "" then detect_product first
        else Some (product_field data) in
      match product with
      | None =>
          inl [Status (Event "Could not detect product - please select manually" Error);
               MarathonComplete false None]
      | Some product =>
          if String.eqb product "" then
            inl [Status (Event "Could not detect product - please select manually" Error);
                 MarathonComplete false None]
          else if String.eqb (email_field data) "" || String.eqb (password_field data) "" then
            inl [Status (Event "Odoo credentials required" Error);
                 MarathonComplete false None]
          else
            inr (Request product serials (email_field data) (password_field data))
      end
  end.

(** What the clock and the disk do while a worker records its run. *)
Record env := Env {
  now : string;
  today : string;
  history_write : write;
  statistics_write : write
}.

(** A worker thread inside [run_task]: its own robot, the arguments
    it was started with, and whether its call of [run_marathon] was
    turned away by the guard. *)
Record thread := Thread {
  t_robot : robot;
  t_request : request;
  t_rejected : bool
}.

(** The server process. *)
Record process := Process {
  outer : world;
  batch_history : file (list batch);
  statistics : file Ledger.statistics;
  outbox : list message;
  threads : list thread
}.

Definition idle : process :=
  Process (World [] 0) Missing Missing [] [].

(** [run_task] after [run_marathon] has come back: the ledger and the
    completion message when it returned, then [robot.cleanup()] in the
    [finally]. *)
Definition conclude (o : oracle) (e : env) (q : request)
           (result : returned bool * robot * world) (p : process) : process :=
  let '(res, r, w) := result in
  let recorded :=
    match res with
    | Value ok =>
        Process w
          (BatchHistory_add (now e) (history_write e) (serials q) (product q) ok
                            (batch_history p))
          (record_batch (today e) (statistics_write e)
                        (Z.of_nat (length (serials q))) (product q) ok
                        (statistics p))
          (outbox p ++ [MarathonComplete ok (Some (length (serials q), product q))])
          (threads p)
    | Exception _ =>
        Process w (batch_history p) (statistics p) (outbox p) (threads p)
    end in
  let '(_, w') := run_cleanup o r (outer recorded) in
  Process w' (batch_history recorded) (statistics recorded) (outbox recorded)
          (threads recorded).

(** [run_task] from start to end, with no other thread in between. *)
Definition run_task (o : oracle) (e : env) (q : request) (p : process) : process :=
  let robot := MarathonRobot in
  conclude o e q (run_marathon o q robot (outer p)) p.

(** The start of a worker: [run_task] builds its robot and calls
    [run_marathon], which tests the guard and sets the flag. *)
Definition spawn (q : request) (p : process) : process :=
  let robot := MarathonRobot in
  let t :=
    if is_running robot then Thread robot q true
    else Thread (self (enter robot (outer p))) q false in
  Process (outer p) (batch_history p) (statistics p) (outbox p)
          (threads p ++ [t]).

(** The rest of a worker, from the guarded part of [run_marathon] to
    the end of [run_task]. *)
Definition finish (o : oracle) (e : env) (t : thread) (p : process) : process :=
  let result :=
    if t_rejected t then (Value false, t_robot t, outer p)
    else
      let '(res, f) :=
        guarded o (t_request t) (Frame (t_robot t) (outer p) None None false) in
      leave res f in
  conclude o e (t_request t) result p.

(** What can happen to the process. *)
Inductive action : Type :=
| Arrives (data : payload)
| Finishes (i : nat) (o : oracle) (e : env).

Definition react (p : process) (a : action) : process :=
  match a with
  | Arrives data =>
      match handle_marathon data with
      | inl replies =>
          Process (outer p) (batch_history p) (statistics p)
                  (outbox p ++ replies) (threads p)
      | inr q => spawn q p
      end
  | Finishes i o e =>
      match threads p !! i with
      | Some t =>
          finish o e t
            (Process (outer p) (batch_history p) (statistics p) (outbox p)
                     (delete i (threads p)))
      | None => p
      end
  end.

Definition run_actions (p : process) (l : list action) : process :=
  fold_left react l p.

(** Executions of [run_marathon] past the guard and not yet over. *)
Definition in_flight (p : process) : nat :=
  length (filter (fun t => is_running (t_robot t) = true) (threads p)).

(** Calls of [run_marathon] the guard turned away. *)
Definition turned_away (p : process) : nat :=
  length (filter (fun t => t_rejected t = true) (threads p)).

End Server.

(* ===================================================================== *)
(** * Sample runs *)
(* ===================================================================== *)

Module Samples.
Import PyStr Ledger Robot Server.

Definition login_page : string := "https://hexmodal.odoo.com/web/login".
Definition home_page : string := "https://hexmodal.odoo.com/web".

(** A remote side that shows the login form, accepts it, and answers
    every call except the ones listed in [broken]. *)
Definition remote (broken : site -> option string) : oracle :=
  Oracle broken login_page home_page.

Definition smooth : oracle := remote (fun _ => None).

Definition done_button_missing : oracle :=
  remote (fun s => match s with
                   | S10_wait_for => Some "Timeout 10000ms exceeded."
                   | _ => None
                   end).

Definition done_click_fails : oracle :=
  remote (fun s => match s with
                   | S10_click => Some "Element is not attached to the DOM"
                   | _ => None
                   end).



Definition page_close_fails : oracle :=
  remote (fun s => match s with
                   | PageClose => Some "Connection closed"
                   | _ => None
                   end).

Definition batch : request :=
  Request "HEX-P" ["SN001"; "SN002"] "operator@example.com" "secret".

Definition order : payload :=
  Payload ("SN001" ++ LF ++ "SN002") "HEX-P" "operator@example.com" "secret".

Definition nothing : world := World [] 0.

(** A robot that already holds an engine and a browser, and the world
    in which these two were created. *)
Definition warm : robot := RobotObj (Some 0) (Some 1) false.
Definition warmed : world :=
  World [Did (Created Engine 0); Did (Created Browser 1)] 2.

Definition clock : env :=
  Env "2024-05-01T09:30:00" "2024-05-01" Written Written.

Definition monday_ok : booking := Booking "2024-05-06" Written 2 "HEX-P" true.
Definition monday_lost : booking := Booking "2024-05-06" Refused 5 "HEX-N" false.
Definition tuesday_failed : booking := Booking "2024-05-07" Written 3 "HEX-P" false.

End Samples.

(* ===================================================================== *)
(** * The device table and the serial routes *)
(* ===================================================================== *)

Module Routes.
Import PyStr Serials Ledger.

(** [DEVICE_NAMES], the products offered for selection. *)
Definition DEVICE_NAMES : list string :=
  [ "BUTT-RedSquare"; "CONN-Ext"; "CR-7007GX"; "CR-7007RX"; "CR-7033A";
    "CR-7082"; "CR-7108R"; "DR-LT"; "E-LightShell-NYC"; "ExitSignShell-NYC";
    "FHUPS1-UNV-12L-SD"; "FHUPS1-UNV-50L-SD"; "HEX-A-1"; "HEX-A-2"; "HEX-A-R-1";
    "HEX-A-R-2"; "HEX-C-2"; "HEX-C-B-R"; "HEX-C-G"; "HEX-C-R"; "HEX-D-P";
    "HEX-F"; "HEX-F-Kit"; "HEX-G"; "HEX-L-S"; "HEX-L-S-UNTESTED"; "HEX-L-Z";
    "HEX-L-Z-UNTESTED"; "HEX-M"; "HEX-MOD-DHT"; "HEX-MOD-DHT-UNCERT";
    "HEX-MOD-LHT"; "HEX-MOD-LHT-NOSERIAL"; "HEX-MOD-LHT-UNCERT"; "HEX-MOD-SDP";
    "HEX-MOD-SDP-NOSERIAL"; "HEX-MOD-SDP-UNCERT"; "HEX-MOD-SHT";
    "HEX-MOD-SHT-NOSERIAL"; "HEX-MOD-SHT-UNCERT"; "HEX-MOD-ULT";
    "HEX-MOD-ULT-NOSERIAL"; "HEX-MOD-ULT-UNCERT"; "HEX-N"; "HEX-P";
    "HEX-P-UNCAL"; "HEX-P-UNCERT"; "HEX-R-R"; "HEX-T-Base"; "HEX-T-C";
    "HEX-T-C-KIT"; "HEX-T-C-UNCERT"; "HEX-T-R"; "HEX-T-R-UNCERT"; "HEX-T-ULT";
    "HEX-W"; "HEX-W-4"; "HEX-X-B-R"; "HEX-X-G"; "HEX-X-R"; "HIS-HEX-A-C-1";
    "HIS-HEX-C-G"; "HIS-HEX-C-R"; "HIS-HEX-L-S"; "HIS-HEX-N"; "HIS-HEX-P";
    "HIS-HEX-R-R"; "HIS-HEX-T-C"; "HIS-HEX-W"; "HIS-HEX-X-G"; "HIS-HEX-X-R";
    "Hex-A-C-1"; "Hex-A-C-2"; "Hex-A-G"; "Hex-D-S"; "LEDIndicator-01";
    "LEDStrip-Green"; "LEDStrip-NYC"; "LEDStrip-Red" ].


(** [strip] on the characters of a text. *)
Definition trim (l : list ascii) : list ascii :=
  rev (drop_spaces (rev (drop_spaces l))).



(** The text of a serial: class characters only. *)
Definition plain (s : string) : Prop := Forall (fun c => serial_char c = true) (chars s).


(** No prefix of a later row of the table extends to a prefix of an
    earlier row. *)
Fixpoint rows_apart (table : list (string * list string)) : bool :=
  match table with
  | [] => true
  | (_, prefixes) :: table' =>
      forallb (fun x =>
                 forallb (fun row => forallb (fun y => negb (String.prefix y x)) (snd row))
                         table')
              prefixes
      && rows_apart table'
  end.

End Routes.

(* ===================================================================== *)
(** * Sums over the statistics *)
(* ===================================================================== *)

Module Sums.
Import Ledger.

(** The sum of the values of a dictionary of integers. *)
Definition total (m : gmap string Z) : Z :=
  map_fold (fun _ v acc => (v + acc)%Z) 0%Z m.

(** The sum of one field over the days. *)
Definition over_days (field : day -> Z) (m : gmap string day) : Z :=
  total (field <$> m).

(** The totals of a statistics dictionary are the sums of its parts. *)
Definition balanced (data : statistics) : Prop :=
  total_serials data = total (products data) /\
  total_serials data = over_days serials (daily data) /\
  total_batches data = over_days batches (daily data) /\
  success_count data = over_days success (daily data) /\
  error_count data = over_days errors (daily data).

(** The entries of a history are at most [MAX_BATCHES], and each
    carries the length of its serial list as its count. *)
Definition well_kept (history : list batch) : Prop :=
  length history <= MAX_BATCHES /\
  Forall (fun b => count b = length (batch_serials b)) history.

(** One call of [BatchHistory.add]: its arguments, and what the clock
    and the disk do during it. *)
Record logging := Logging {
  logged_at : string;
  logged_write : write;
  logged_serials : list string;
  logged_product : string;
  logged_ok : bool
}.

Definition log_one (f : file (list batch)) (c : logging) : file (list batch) :=
  BatchHistory_add (logged_at c) (logged_write c) (logged_serials c)
                   (logged_product c) (logged_ok c) f.

(** A sequence of [BatchHistory.add] calls on the history file. *)
Definition log_batches (cs : list logging) (f : file (list batch)) : file (list batch) :=
  fold_left log_one cs f.

(** The batch a call adds. *)
Definition logged_batch (c : logging) : batch :=
  Batch (logged_at c) (logged_serials c) (length (logged_serials c))
        (logged_product c) (logged_ok c).

End Sums.

(* ===================================================================== *)
(** * Verification against the compliance API *)
(* ===================================================================== *)

Module Verify.
Import PyStr Serials.

(** What [response.json()] gives once it is read the way the loop
    reads it: reading may raise; otherwise [data.get('data')] is a
    list of rows, and a row has its status text or lacks the key. *)
Inductive body : Type :=
| Unreadable (e : string)
| Rows (rows : list (option string)).

(** What one [requests.post] does: it raises, or it answers. *)
Inductive reply : Type :=
| Fails (e : string)
| Answers (status_code : nat) (json : body).

(** The text stored for one serial. *)
Definition verdict (r : reply) : string :=
  match r with
  | Fails e => "Error: " ++ e
  | Answers status_code json =>
      if (status_code =? 200)%nat then
        match json with
        | Unreadable e => "Error: " ++ e
        | Rows [] => "NOT FOUND"
        | Rows (row :: _) =>
            let status := default "" row in
            if contains "In Compliance" status && negb (contains "Issue" status)
            then "PASS"
            else if String.eqb status "" then "Unknown" else status
        end
      else "API Error: " ++ str_of_nat status_code
  end.

(** What the function leaves behind: the [results] dictionary and the
    serials it posted, in order. *)
Record verified := Verified {
  results_of : gmap string string;
  posted : list string
}.

(** The [for serial in serials] loop with credentials; [net i] is what
    the [i]-th post of the call does. *)
Fixpoint verify_loop (net : nat -> reply) (i : nat) (serials : list string)
         (results : gmap string string) : gmap string string :=
  match serials with
  | [] => results
  | serial :: rest =>
      verify_loop net (S i) rest (<[serial := verdict (net i)]> results)
  end.

(** The loop without credentials. *)
Definition not_verified (serials : list string) : gmap string string :=
  fold_left (fun results serial => <[serial := "NOT VERIFIED - No credentials"]> results)
            serials ∅.

(** [verify_serials_api(serials, session_cookie, csrf_token)] *)
Definition verify_serials_api (net : nat -> reply) (serials : list string)
           (session_cookie csrf_token : string) : verified :=
  if String.eqb session_cookie "" || String.eqb csrf_token "" then
    Verified (not_verified serials) []
  else
    Verified (verify_loop net 0 serials ∅) serials.

(** The [data] dictionary of a [verify_serials] socket event. *)
Record verify_data := VerifyData {
  serials_text : string;
  session_cookie_field : string;
  csrf_token_field : string
}.

(** What [handle_verify] sends. *)
Inductive outgoing : Type :=
| Progress (text : string) (kind : string)
| VerifyFailed (error : string)
| VerifyComplete (results : gmap string string) (total passed : nat) (failed : Z).

(** [sum(1 for v in results.values() if v == "PASS")] *)
Definition count_passed (results : gmap string string) : nat :=
  length (filter (fun kv => kv.2 = "PASS") (map_to_list results)).

(** [handle_verify(data)] *)
Definition handle_verify (net : nat -> reply) (data : verify_data) : list outgoing :=
  let serials := clean_serials (serials_text data) in
  match serials with
  | [] => [VerifyFailed "No serials"]
  | _ :: _ =>
      let results :=
        results_of (verify_serials_api net serials (session_cookie_field data)
                                       (csrf_token_field data)) in
      let passed := count_passed results in
      [ Progress ("Verifying " ++ str_of_nat (length serials) ++ " serials...") "info";
        VerifyComplete results (length serials) passed
                       (Z.of_nat (length serials) - Z.of_nat passed) ]
  end.

End Verify.

(* ===================================================================== *)
(** * The grid of the label sheet *)
(* ===================================================================== *)

Module Labels.

(** What [generate_labels_pdf] asks of the canvas, as far as the grid
    goes: a new page, or the label of a serial in a cell. *)
Inductive canvas_op : Type :=
| ShowPage
| DrawLabel (col row : nat) (serial : string).

(** One turn of the [for i, serial in enumerate(serials)] loop.  [cols]
    and [rows] are the grid the function computes from the page and
    label sizes; a division by zero raises. *)
Definition place (cols rows i : nat) (serial : string) : option (list canvas_op) :=
  if (cols * rows =? 0)%nat then None
  else
    let page_idx := (i / (cols * rows))%nat in
    let pos_on_page := (i mod (cols * rows))%nat in
    let col := (pos_on_page mod cols)%nat in
    let row := (pos_on_page / cols)%nat in
    Some ((if (pos_on_page =? 0)%nat && (0 <? i)%nat then [ShowPage] else [])
            ++ [DrawLabel col row serial])%list.

Fixpoint layout_from (cols rows i : nat) (serials : list string)
  : option (list canvas_op) :=
  match serials with
  | [] => Some []
  | serial :: rest =>
      match place cols rows i serial with
      | None => None
      | Some here =>
          match layout_from cols rows (S i) rest with
          | None => None
          | Some after => Some (here ++ after)%list
          end
      end
  end.

(** The canvas operations of [generate_labels_pdf(serials)], [None]
    when the loop raises. *)
Definition layout (cols rows : nat) (serials : list string) : option (list canvas_op) :=
  layout_from cols rows 0 serials.

(** The pages of a list of canvas operations: [ShowPage] closes the
    current one. *)
Fixpoint pages_from (current : list (nat * nat * string)) (l : list canvas_op)
  : list (list (nat * nat * string)) :=
  match l with
  | [] => [current]
  | ShowPage :: l' => current :: pages_from [] l'
  | DrawLabel col row serial :: l' =>
      pages_from (current ++ [(col, row, serial)])%list l'
  end.

Definition pages (l : list canvas_op) : list (list (nat * nat * string)) :=
  pages_from [] l.

(** The cell of a label. *)
Definition cell (x : nat * nat * string) : nat * nat := (x.1.1, x.1.2).

(** The labels of a page fill it row by row from its first cell. *)
Definition in_reading_order (cols rows : nat) (pg : list (nat * nat * string)) : Prop :=
  (length pg <= cols * rows)%nat /\
  forall k x, pg !! k = Some x -> cell x = ((k mod cols)%nat, (k / cols)%nat).

End Labels.

(* ===================================================================== *)
(** * What a run types into the page *)
(* ===================================================================== *)

Module Typing.
Import PyStr Robot.
Local Open Scope list_scope.

(** The call sites that are a [fill]. *)
Definition is_fill (s : site) : bool :=
  match s with
  | S1_fill_login | S1_fill_password | S4_fill | S5_fill | S8_fill => true
  | _ => false
  end.

(** The texts typed among a list of page calls, in order. *)
Fixpoint typed (l : list (site * string)) : list (site * string) :=
  match l with
  | [] => []
  | c :: l' => if is_fill (fst c) then c :: typed l' else typed l'
  end.

(** What step [k] types when it runs to its end. *)
Definition entered_in (o : oracle) (q : request) (k : nat) : list (site * string) :=
  match k with
  | 1 => if contains "login" (lower (url_after_goto o))
         then [(S1_fill_login, odoo_email q); (S1_fill_password, odoo_password q)]
         else []
  | 4 => [(S4_fill, product q)]
  | 5 => [(S5_fill, str_of_nat (length (serials q)))]
  | 8 => [(S8_fill, join LF (serials q))]
  | _ => []
  end.

(** What the ten steps type when they all run to their end. *)
Definition entered (o : oracle) (q : request) : list (site * string) :=
  flat_map (entered_in o q) (seq 1 10).

(** Block [m] types a prefix of [texts], and all of it when it runs to
    its end. *)
Definition types (m : M unit) (texts : list (site * string)) : Prop :=
  typed (did m) `prefix_of` texts /\
  (fate m = Normal tt -> typed (did m) = texts).

(** The closings [cleanup] attempts on robot [r]: the browser when
    there is one, then the engine unless closing the browser raised. *)
Definition cleanup_ops (o : oracle) (r : robot) : list op :=
  match browser r with
  | Some b =>
      Closing Browser b ::
      match raises o BrowserClose, playwright r with
      | None, Some e => [Closing Engine e]
      | _, _ => []
      end
  | None =>
      match playwright r with
      | Some e => [Closing Engine e]
      | None => []
      end
  end.

(** Every browser and every page created in [l] is closed in [l]. *)
Definition closes_its_own (l : list op) : Prop :=
  forall h, (Created Browser h ∈ l -> Closing Browser h ∈ l) /\
            (Created Page h ∈ l -> Closing Page h ∈ l).

End Typing.

(* ===================================================================== *)
(** * More sample runs *)
(* ===================================================================== *)

Module MoreSamples.
Import PyStr Ledger Robot Server Samples Sums.

(** A remote side that shows the login form again after it was
    submitted. *)
Definition wrong_password : oracle :=
  Oracle (fun _ => None) login_page login_page.

(** A remote side on which closing the browser raises. *)
Definition browser_close_fails : oracle :=
  remote (fun s => match s with
                   | BrowserClose => Some "Target closed"
                   | _ => None
                   end).

Definition first_batch : logging :=
  Logging "2024-05-06T08:00:00" Written ["SN001"; "SN002"] "HEX-P" true.
Definition lost_batch : logging :=
  Logging "2024-05-06T09:00:00" Refused ["SN003"] "HEX-N" false.
Definition second_batch : logging :=
  Logging "2024-05-06T10:00:00" Written ["SN004"] "HEX-N" false.

(** A compliance service: the first post finds a light in compliance,
    the second finds nothing, the third is refused, and every later
    one times out. *)
Definition compliance (i : nat) : Verify.reply :=
  match i with
  | 0 => Verify.Answers 200 (Verify.Rows [Some "In Compliance"])
  | 1 => Verify.Answers 200 (Verify.Rows [])
  | 2 => Verify.Answers 403 (Verify.Rows [])
  | _ => Verify.Fails "Read timed out."
  end.

Definition to_verify : Verify.verify_data :=
  Verify.VerifyData ("SN001" ++ LF ++ "SN002" ++ LF ++ "SN001") "cookie" "token".

End MoreSamples.


(* ===================================================================== *)
(** * Facts about serial intake *)
(* ===================================================================== *)

Module SerialsFacts.
Import PyStr Serials.

(** The cleaning example of the specification: blank lines go, and a
    URL gives the value of its [s] parameter. *)
Example clean_serials_example :
  clean_serials ("  ABC123 " ++ LF_text ++ LF_text ++ "https://x/?s=XYZ987&y=1" ++ LF_text)
  = ["ABC123"; "XYZ987"].
Proof. vm_compute. reflexivity. Qed.

(** [$] lets one trailing line feed through, as [re] does. *)
Example match_serial_trailing_newline :
  match_serial ("AB" ++ LF_text) = true /\ match_serial ("AB" ++ LF_text ++ LF_text) = false.
Proof. split; vm_compute; reflexivity. Qed.

(** The first matching row of the table wins: a serial of the UNCERT
    variant is detected as its base product. *)
Example detect_product_first_row_wins :
  detect_product "hex-t-c-uncert-0001" = Some "HEX-T-C".
Proof. vm_compute. reflexivity. Qed.

End SerialsFacts.

(* ===================================================================== *)
(** * Facts about the monad *)
(* ===================================================================== *)

Module MonadFacts.
Import Robot.
Local Open Scope list_scope.

Lemma events_app l1 l2 : events (l1 ++ l2) = events l1 ++ events l2.
Proof. induction l1 as [|[e|s a|x] l1 IH]; simpl; by rewrite ?IH. Qed.

Lemma page_calls_app l1 l2 : page_calls (l1 ++ l2) = page_calls l1 ++ page_calls l2.
Proof. induction l1 as [|[e|s a|x] l1 IH]; simpl; by rewrite ?IH. Qed.

Lemma operations_app l1 l2 : operations (l1 ++ l2) = operations l1 ++ operations l2.
Proof. induction l1 as [|[e|s a|x] l1 IH]; simpl; by rewrite ?IH. Qed.

Lemma extend_nil f : extend [] f = f.
Proof.
  destruct f as [r [h n] cx pg su]. unfold extend; simpl.
  by rewrite app_nil_r.
Qed.

Lemma extend_extend e1 e2 f : extend e2 (extend e1 f) = extend (e1 ++ e2) f.
Proof. unfold extend; simpl. by rewrite app_assoc. Qed.

Lemma behaves_read {A} (m : M A) r es :
  behaves m r es -> fate m = r /\ told m = es.
Proof. intros H. unfold fate, told. rewrite (H blank). simpl. auto. Qed.

Lemma behaves_oblivious {A} (m : M A) r es :
  behaves m r es -> operations es = [] -> oblivious m.
Proof.
  intros H Hq. destruct (behaves_read _ _ _ H) as (Hf & Ht).
  unfold oblivious. rewrite Hf, Ht. by split.
Qed.

Lemma oblivious_behaves {A} (m : M A) :
  oblivious m -> behaves m (fate m) (told m).
Proof. by intros [H _]. Qed.

Lemma behaves_ret {A} (a : A) : behaves (mret a) (Normal a) [].
Proof. intros f. by rewrite extend_nil. Qed.

Lemma behaves_emit msg st : behaves (emit msg st) (Normal tt) [Said (Event msg st)].
Proof. intros f. reflexivity. Qed.

Lemma behaves_call o s a :
  behaves (call o s a)
          (match raises o s with None => Normal tt | Some e => Raise e end)
          [Called s a].
Proof. intros f. reflexivity. Qed.

Lemma behaves_return {A} b : behaves (@return_ A b) (Return b) [].
Proof. intros f. unfold return_. by rewrite extend_nil. Qed.

Lemma behaves_bind {A B} (m : M A) (k : A -> M B) r e1 :
  behaves m r e1 ->
  (forall a, oblivious (k a)) ->
  behaves (m ≫= k)
    (match r with
     | Normal a => fate (k a)
     | Raise e => Raise e
     | Return b => Return b
     end)
    (e1 ++ match r with Normal a => told (k a) | _ => [] end).
Proof.
  intros Hm Hk f. unfold mbind, M_bind. rewrite (Hm f).
  destruct r as [a|e|b]; rewrite ?app_nil_r; try reflexivity.
  rewrite (proj1 (Hk a)). by rewrite extend_extend.
Qed.

Lemma behaves_try_except {A} (m : M A) (h : string -> M A) r e1 :
  behaves m r e1 ->
  (forall e, oblivious (h e)) ->
  behaves (try_except m h)
    (match r with Raise e => fate (h e) | _ => r end)
    (e1 ++ match r with Raise e => told (h e) | _ => [] end).
Proof.
  intros Hm Hh f. unfold try_except. rewrite (Hm f).
  destruct r as [a|e|b]; rewrite ?app_nil_r; try reflexivity.
  rewrite (proj1 (Hh e)). by rewrite extend_extend.
Qed.

(** Closure of [oblivious] under the constructs the steps use. *)

Lemma oblivious_ret {A} (a : A) : oblivious (mret a : M A).
Proof. by eapply behaves_oblivious; [apply behaves_ret|]. Qed.

Lemma oblivious_pass : oblivious pass.
Proof. apply oblivious_ret. Qed.

Lemma oblivious_emit msg st : oblivious (emit msg st).
Proof. by eapply behaves_oblivious; [apply behaves_emit|]. Qed.

Lemma oblivious_call o s a : oblivious (call o s a).
Proof. by eapply behaves_oblivious; [apply behaves_call|]. Qed.

Lemma oblivious_return {A} b : oblivious (@return_ A b).
Proof. by eapply behaves_oblivious; [apply behaves_return|]. Qed.

Lemma oblivious_bind {A B} (m : M A) (k : A -> M B) :
  oblivious m -> (forall a, oblivious (k a)) -> oblivious (m ≫= k).
Proof.
  intros Hm Hk.
  eapply behaves_oblivious; [exact (behaves_bind m k _ _ (proj1 Hm) Hk)|].
  rewrite operations_app, (proj2 Hm).
  destruct (fate m) as [a|e|b]; [apply (proj2 (Hk a)) | done | done].
Qed.

Lemma oblivious_try_except {A} (m : M A) (h : string -> M A) :
  oblivious m -> (forall e, oblivious (h e)) -> oblivious (try_except m h).
Proof.
  intros Hm Hh.
  eapply behaves_oblivious; [exact (behaves_try_except m h _ _ (proj1 Hm) Hh)|].
  rewrite operations_app, (proj2 Hm).
  destruct (fate m) as [a|e|b]; [done | apply (proj2 (Hh e)) | done].
Qed.

Lemma oblivious_if {A} (c : bool) (m1 m2 : M A) :
  oblivious m1 -> oblivious m2 -> oblivious (if c then m1 else m2).
Proof. by destruct c. Qed.

Create HintDb oblivious.
#[export] Hint Resolve oblivious_ret oblivious_pass oblivious_emit oblivious_call
  oblivious_return oblivious_bind oblivious_try_except oblivious_if : oblivious.

(** Sequencing two oblivious blocks. *)

Lemma fate_seq (m n : M unit) :
  oblivious m -> oblivious n ->
  fate (m ;; n) = match fate m with Normal _ => fate n | r => r end.
Proof.
  intros Hm Hn.
  destruct (behaves_read _ _ _ (behaves_bind m (fun _ => n) _ _ (proj1 Hm) (fun _ => Hn)))
    as (-> & _). by destruct (fate m).
Qed.

Lemma told_seq (m n : M unit) :
  oblivious m -> oblivious n ->
  told (m ;; n) = told m ++ match fate m with Normal _ => told n | _ => [] end.
Proof.
  intros Hm Hn.
  destruct (behaves_read _ _ _ (behaves_bind m (fun _ => n) _ _ (proj1 Hm) (fun _ => Hn)))
    as (_ & ->). by destruct (fate m).
Qed.

Lemma said_seq (m n : M unit) :
  oblivious m -> oblivious n ->
  said (m ;; n) = said m ++ match fate m with Normal _ => said n | _ => [] end.
Proof.
  intros Hm Hn. unfold said. rewrite told_seq, events_app by done.
  by destruct (fate m).
Qed.

Lemma did_seq (m n : M unit) :
  oblivious m -> oblivious n ->
  did (m ;; n) = did m ++ match fate m with Normal _ => did n | _ => [] end.
Proof.
  intros Hm Hn. unfold did. rewrite told_seq, page_calls_app by done.
  by destruct (fate m).
Qed.

End MonadFacts.

(* ===================================================================== *)
(** * Facts about the ten steps *)
(* ===================================================================== *)

Module StepFacts.
Import Robot MonadFacts.
Local Open Scope list_scope.

(** Case analysis on every oracle answer the goal depends on. *)
Ltac crack o :=
  repeat match goal with
         | |- context [raises o ?s] => destruct (raises o s)
         | |- context [PyStr.contains ?n ?u] => destruct (PyStr.contains n u)
         end.

Ltac open_steps :=
  unfold step, step1, step2, step3, step4, step5, step6, step7, step8,
    step9, step10.

Lemma step_oblivious o q k : oblivious (step o q k).
Proof.
  do 11 (destruct k as [|k]; [open_steps; auto 20 with oblivious|]).
  apply oblivious_pass.
Qed.

#[export] Hint Resolve step_oblivious : oblivious.

Lemma workflow_oblivious o q : oblivious (workflow o q).
Proof. unfold workflow. auto 20 with oblivious. Qed.

#[export] Hint Resolve workflow_oblivious : oblivious.

Ltac run_block o :=
  unfold fate, said, did, told; open_steps;
  unfold try_except, return_, pass, call, emit, mbind, M_bind, mret, M_ret;
  cbn [fst snd history outside extend blank app self context page success fresh
       events page_calls operations];
  crack o;
  cbn [fst snd history outside extend blank app self context page success fresh
       events page_calls operations].

Lemma step1_said o q :
  said (step o q 1) =
    announce q 1 ::
    match fate (step o q 1) with
    | Normal _ => [logged_in]
    | Raise _ => []
    | Return _ => [login_failed]
    end.
Proof. run_block o; reflexivity. Qed.

Lemma step_said o q k : 2 <= k <= 10 -> said (step o q k) = [announce q k].
Proof.
  intros Hk.
  do 11 (destruct k as [|k]; [try lia; try (run_block o; reflexivity)|]).
  lia.
Qed.

(** Only the failed login leaves by [return], and it returns [False]. *)
Lemma step_return o q k b : fate (step o q k) = Return b -> k = 1 /\ b = false.
Proof.
  do 11 (destruct k as [|k];
         [try (run_block o; intros H; (discriminate H || (injection H as <-; auto)))|]).
  discriminate.
Qed.

(** Nothing that raises inside step 10 leaves it. *)
Lemma step10_completes o q : completes o q 10.
Proof. unfold completes. run_block o; reflexivity. Qed.

(** ** The workflow as a whole *)

Ltac unroll :=
  unfold workflow;
  rewrite ?fate_seq, ?said_seq by auto 20 with oblivious.

Lemma workflow_completes_iff o q :
  fate (workflow o q) = Normal tt <-> forall k, 1 <= k <= 9 -> completes o q k.
Proof.
  unfold completes. split.
  - unroll. intros H k Hk.
    destruct (fate (step o q 1)) as [[]|?|?] eqn:E1; try discriminate H.
    destruct (fate (step o q 2)) as [[]|?|?] eqn:E2; try discriminate H.
    destruct (fate (step o q 3)) as [[]|?|?] eqn:E3; try discriminate H.
    destruct (fate (step o q 4)) as [[]|?|?] eqn:E4; try discriminate H.
    destruct (fate (step o q 5)) as [[]|?|?] eqn:E5; try discriminate H.
    destruct (fate (step o q 6)) as [[]|?|?] eqn:E6; try discriminate H.
    destruct (fate (step o q 7)) as [[]|?|?] eqn:E7; try discriminate H.
    destruct (fate (step o q 8)) as [[]|?|?] eqn:E8; try discriminate H.
    destruct (fate (step o q 9)) as [[]|?|?] eqn:E9; try discriminate H.
    do 10 (destruct k as [|k]; [try lia; assumption|]). lia.
  - intros H. unroll.
    rewrite (H 1), (H 2), (H 3), (H 4), (H 5), (H 6), (H 7), (H 8), (H 9) by lia.
    apply step10_completes.
Qed.

Lemma workflow_success o q :
  fate (workflow o q) = Normal tt -> said (workflow o q) = trail q 10.
Proof.
  intros H. pose proof (proj1 (workflow_completes_iff o q) H) as Hk.
  unfold completes in Hk. unroll.
  rewrite step1_said, !step_said by lia.
  rewrite (Hk 1), (Hk 2), (Hk 3), (Hk 4), (Hk 5), (Hk 6), (Hk 7), (Hk 8), (Hk 9) by lia.
  reflexivity.
Qed.


(** A run either raises out of the workflow or returns [False]. *)
Lemma workflow_return o q b : fate (workflow o q) = Return b -> b = false.
Proof.
  unroll. intros H.
  repeat match type of H with
         | context [fate (step o q ?n)] =>
             let E := fresh "E" in
             destruct (fate (step o q n)) as [[]|e|b'] eqn:E;
             [ | discriminate H
               | injection H as ->; by destruct (step_return _ _ _ _ E) ]
         end.
  discriminate H.
Qed.

End StepFacts.

(* ===================================================================== *)
(** * Facts about [run_marathon] *)
(* ===================================================================== *)

Module RunFacts.
Import Robot MonadFacts StepFacts.
Local Open Scope list_scope.

(** Open a call of [run_marathon] that passed the guard, split on the
    handles the robot has and on every oracle answer outside the
    workflow, and replace the workflow by its fate. *)
Ltac open_run :=
  unfold result_of, robot_of, world_of, acquires, acquire_notices, notices,
    run_marathon, guarded, leave, enter,
    try_block, except_block, finally_block, acquire,
    ensure_browser, create, close, set_playwright, set_browser, set_is_running,
    set_self, set_context, set_page, set_success, get, emit, pass,
    try_finally, try_except,
    mbind, M_bind, mret, M_ret, take_handle, blank,
    sink, calls, ops, said, did.

Ltac tidy :=
  cbn [fst snd history outside extend app self context page success
       fresh playwright browser is_running].

(** Split the views of a history along its appends; the workflow adds
    no creation and no closing. *)
Ltac views :=
  rewrite ?events_app, ?page_calls_app, ?operations_app;
  rewrite ?(proj2 (workflow_oblivious _ _));
  cbn [events page_calls operations app];
  rewrite <- ?app_assoc; cbn [app].

Ltac run_cases o q r :=
  destruct r as [pw br running]; cbn [is_running]; intros ->;
  open_run; tidy;
  destruct pw, br; tidy;
  repeat match goal with
         | |- context [raises o ?s] => destruct (raises o s); tidy
         | |- context [workflow o q ?f] =>
             rewrite (proj1 (workflow_oblivious o q) f);
             let E := fresh "E" in
             destruct (fate (workflow o q)) as [[]|?|?] eqn:E; tidy
         end;
  views.


Ltac finish_case :=
  intros;
  repeat match goal with
         | H : _ /\ _ |- _ => destruct H
         | H : fate (workflow _ _) = Return _ |- _ =>
             pose proof (workflow_return _ _ _ H) as ->; clear H
         | H : ~ (?x = ?x) |- _ => by destruct H
         | |- _ /\ _ => split
         | |- _ <-> _ => split
         | |- ~ _ => intro
         | |- exists _, _ => eexists
         end;
  intros;
  repeat match goal with
         | H : _ /\ _ |- _ => destruct H
         end;
  rewrite <- ?app_assoc; cbn [app]; rewrite ?app_nil_r;
  try reflexivity; try congruence; try tauto.

(** A call on a running robot is turned away and changes nothing. *)
Lemma run_rejected o q r w :
  is_running r = true -> run_marathon o q r w = (Value false, r, w).
Proof. intros H. unfold run_marathon. by rewrite H. Qed.

Lemma run_true_iff o q r w :
  is_running r = false ->
  result_of (run_marathon o q r w) = Value true <->
  acquires o r /\ fate (workflow o q) = Normal tt.
Proof. run_cases o q r; finish_case. Qed.

(** The run of a robot whose acquisition goes through. *)
Lemma run_after_acquire o q r w :
  is_running r = false -> acquires o r ->
  result_of (run_marathon o q r w) =
    Value match fate (workflow o q) with Normal _ => true | _ => false end /\
  sink (world_of (run_marathon o q r w)) =
    sink w ++ notices r ++ said (workflow o q) ++
    match fate (workflow o q) with
    | Normal _ => [completed]
    | Raise e => [error_event e]
    | Return _ => []
    end.
Proof. run_cases o q r; finish_case. Qed.

(** The run of a robot whose acquisition fails. *)
Lemma run_without_acquire o q r w :
  is_running r = false -> ~ acquires o r ->
  result_of (run_marathon o q r w) = Value false /\
  calls (world_of (run_marathon o q r w)) = calls w /\
  exists e,
    sink (world_of (run_marathon o q r w)) =
      sink w ++ acquire_notices o r ++ [error_event e].
Proof. run_cases o q r; finish_case. Qed.

Lemma acquire_notices_acquired o r :
  acquires o r -> acquire_notices o r = notices r.
Proof.
  destruct r as [[?|] [?|] ?]; open_run; tidy;
    repeat match goal with
           | |- context [raises o ?s] => destruct (raises o s); tidy
           end; finish_case.
Qed.


(** The flag is down when the call is over. *)
Lemma run_clears_flag o q r w :
  is_running r = false -> is_running (robot_of (run_marathon o q r w)) = false.
Proof. run_cases o q r; finish_case. Qed.





Ltac teardown_case :=
  intros; rewrite <- ?app_assoc; cbn [app];
  first [ exists []; do 2 eexists; reflexivity
        | eexists [_]; do 2 eexists; reflexivity
        | eexists [_; _]; do 2 eexists; reflexivity
        | congruence ].

(** The teardown of a run that got its context and its page, when
    closing the page goes through: page, then context. *)
Lemma run_teardown o q r w :
  is_running r = false -> acquires o r -> raises o PageClose = None ->
  exists pre c p,
    ops (world_of (run_marathon o q r w)) =
      ops w ++ pre ++
      [Created Context c; Created Page p; Closing Page p; Closing Context c].
Proof. run_cases o q r; teardown_case. Qed.

(** The same when closing the page raises: the [except] is reached
    before the context is closed. *)
Lemma run_teardown_cut_short o q r w :
  is_running r = false -> acquires o r -> raises o PageClose <> None ->
  exists pre c p,
    ops (world_of (run_marathon o q r w)) =
      ops w ++ pre ++ [Created Context c; Created Page p; Closing Page p].
Proof. run_cases o q r; teardown_case. Qed.




End RunFacts.

(* ===================================================================== *)
(** * Facts about the ledger *)
(* ===================================================================== *)

Module LedgerFacts.
Import Ledger.
Local Open Scope Z_scope.

Lemma bump_split (ok : bool) (s e : Z) :
  bump ok s + bump (negb ok) e = s + e + 1.
Proof. destruct ok; simpl; lia. Qed.

Lemma counted_empty : counted empty_statistics.
Proof.
  split; [reflexivity|].
  intros d b H. simpl in H. by rewrite lookup_empty in H.
Qed.

(** The in-memory update keeps the totals and every day in step. *)
Lemma record_in_counted today n product ok data :
  counted data -> counted (record_in today n product ok data).
Proof.
  intros [Htot Hday]. split.
  - simpl. rewrite bump_split. lia.
  - intros d b. simpl. rewrite lookup_insert.
    destruct (decide (today = d)) as [->|Hne].
    + intros [= <-]. simpl. rewrite bump_split.
      destruct (daily data !! d) as [b0|] eqn:Hb; simpl.
      * specialize (Hday d b0 Hb). lia.
      * lia.
    + apply Hday.
Qed.

(** Whatever the disk does with the write, what the next [load]
    reads is in step. *)
Lemma record_batch_counted today w n product ok f :
  counted (Statistics_load f) ->
  counted (Statistics_load (record_batch today w n product ok f)).
Proof.
  intros H. unfold record_batch, Statistics_save, save.
  destruct w; simpl.
  - by apply record_in_counted.
  - exact H.
  - apply counted_empty.
Qed.

End LedgerFacts.

(* ===================================================================== *)
(** * Facts about the server *)
(* ===================================================================== *)

Module ServerFacts.
Import Robot Server Samples.
Local Open Scope list_scope.

(** An accepted event starts a worker whose robot is new, so the
    guard of [run_marathon] lets it through. *)
Lemma arrival_accepted p data q :
  handle_marathon data = inr q ->
  react p (Arrives data) =
    Process (outer p) (batch_history p) (statistics p) (outbox p)
            (threads p ++ [Thread (RobotObj None None true) q false]).
Proof. intros H. simpl. by rewrite H. Qed.

Lemma in_flight_app p t :
  is_running (t_robot t) = true ->
  in_flight (Process (outer p) (batch_history p) (statistics p) (outbox p)
                     (threads p ++ [t])) = S (in_flight p).
Proof.
  intros H. unfold in_flight. simpl. rewrite filter_app, length_app.
  rewrite filter_cons_True by done. simpl. lia.
Qed.

Lemma turned_away_app p t :
  t_rejected t = false ->
  turned_away (Process (outer p) (batch_history p) (statistics p) (outbox p)
                       (threads p ++ [t])) = turned_away p.
Proof.
  intros H. unfold turned_away. simpl. rewrite filter_app, length_app.
  rewrite filter_cons_False by (rewrite H; done). simpl. lia.
Qed.

(** A worker alone in the process: starting it and letting it finish
    is [run_task]. *)
Lemma worker_alone o e p data q :
  threads p = [] ->
  handle_marathon data = inr q ->
  run_actions p [Arrives data; Finishes 0 o e] = run_task o e q p.
Proof.
  intros Hp Hq. unfold run_actions. cbn [fold_left].
  rewrite (arrival_accepted _ _ _ Hq), Hp.
  destruct p as [w h s out th]. simpl in Hp. subst th. reflexivity.
Qed.

(** Two workers started one after the other and finishing later: both
    run the whole workflow, each on an engine and a browser of its
    own, and both report success. *)
Example overlapping_workers_both_complete :
  let p := run_actions idle [Arrives order; Arrives order;
                             Finishes 0 smooth clock; Finishes 0 smooth clock] in
  outbox p = [MarathonComplete true (Some (2, "HEX-P"%string));
              MarathonComplete true (Some (2, "HEX-P"%string))] /\
  threads p = [] /\
  length (sink (outer p)) = 28 /\
  Ledger.get_today "2024-05-01" (statistics p) = Ledger.Day 4 2 2 0.
Proof. repeat split; vm_compute; reflexivity. Qed.

(** The end-to-end scenario of the specification: one request for two
    serials, every step goes through. *)
Example end_to_end_scenario :
  let p := run_task smooth clock batch idle in
  outbox p = [MarathonComplete true (Some (2, "HEX-P"%string))] /\
  Ledger.load [] (batch_history p) =
    [Ledger.Batch "2024-05-01T09:30:00" ["SN001"; "SN002"]%string 2 "HEX-P" true] /\
  Ledger.get_today "2024-05-01" (statistics p) = Ledger.Day 2 1 1 0.
Proof. repeat split; vm_compute; reflexivity. Qed.

End ServerFacts.

(* ===================================================================== *)
(** * Facts about Python strings *)
(* ===================================================================== *)

Module PyStrFacts.
Import PyStr Routes.
Local Open Scope list_scope.

Lemma chars_of_chars l : chars (of_chars l) = l.
Proof. apply list_ascii_of_string_of_list_ascii. Qed.

Lemma of_chars_chars s : of_chars (chars s) = s.
Proof. apply string_of_list_ascii_of_string. Qed.

Lemma chars_inj s t : chars s = chars t -> s = t.
Proof. intros H. by rewrite <- (of_chars_chars s), H, of_chars_chars. Qed.

Lemma len_chars s : len s = length (chars s).
Proof. unfold len, chars. induction s; simpl; auto. Qed.

Lemma chars_app s t : chars (s ++ t)%string = chars s ++ chars t.
Proof. unfold chars. induction s; simpl; by rewrite ?IHs. Qed.

Lemma chars_empty s : chars s = [] <-> s = ""%string.
Proof. destruct s; simpl; split; congruence. Qed.

(** ** [strip] *)

Lemma chars_strip s : chars (strip s) = trim (chars s).
Proof. unfold strip. by rewrite chars_of_chars. Qed.


Lemma drop_spaces_head l c l' :
  drop_spaces l = c :: l' -> is_space c = false.
Proof.
  induction l as [|d l IH]; simpl; [done|].
  destruct (is_space d) eqn:E; [exact IH|]. by intros [= <- _].
Qed.

Lemma drop_spaces_fixed c l : is_space c = false -> drop_spaces (c :: l) = c :: l.
Proof. intros H. simpl. by rewrite H. Qed.

Lemma drop_spaces_idem l : drop_spaces (drop_spaces l) = drop_spaces l.
Proof.
  destruct (drop_spaces l) as [|c l'] eqn:E; [done|].
  apply drop_spaces_fixed. by eapply drop_spaces_head.
Qed.

Lemma drop_spaces_all l :
  Forall (fun c => is_space c = true) l -> drop_spaces l = [].
Proof. induction 1 as [|c l Hc _ IH]; simpl; [done|]. by rewrite Hc. Qed.

Lemma drop_spaces_app sp l :
  Forall (fun c => is_space c = true) sp -> drop_spaces (sp ++ l) = drop_spaces l.
Proof. induction 1 as [|c sp Hc _ IH]; simpl; [done|]. by rewrite Hc. Qed.


Lemma trim_fixed_of_ends l :
  (forall a l', l = a :: l' -> is_space a = false) ->
  (forall b l', l = l' ++ [b] -> is_space b = false) ->
  trim l = l.
Proof.
  intros Hfirst Hlast. unfold trim.
  destruct l as [|a l']; [done|].
  rewrite (drop_spaces_fixed a l') by (by eapply Hfirst).
  destruct (rev (a :: l')) as [|b r] eqn:E.
  { apply (f_equal (@rev ascii)) in E. rewrite rev_involutive in E. done. }
  assert (Hb : is_space b = false).
  { apply (Hlast b (rev r)).
    rewrite <- (rev_involutive (a :: l')), E. by simpl. }
  rewrite (drop_spaces_fixed b r Hb), <- E. apply rev_involutive.
Qed.



Lemma trim_no_space l :
  Forall (fun c => is_space c = false) l -> trim l = l.
Proof.
  intros H. apply trim_fixed_of_ends.
  - intros a l' ->. by inversion H.
  - intros b l' ->. apply Forall_app in H as [_ H]. by inversion H.
Qed.

Lemma serial_char_not_space c : serial_char c = true -> is_space c = false.
Proof.
  destruct c as [[] [] [] [] [] [] [] []]; vm_compute; congruence.
Qed.

End PyStrFacts.

(* ===================================================================== *)
(** * Facts about serial intake *)
(* ===================================================================== *)

Module IntakeFacts.
Import PyStr Serials Routes PyStrFacts.
Local Open Scope list_scope.



Lemma strip_plain s : plain s -> strip s = s.
Proof.
  intros H. apply chars_inj. rewrite chars_strip. apply trim_no_space.
  eapply Forall_impl; [exact H|]. intros c. apply serial_char_not_space.
Qed.



(** ** The loop of [validate_serials] *)











(** ** [detect_product] *)

Lemma upper_char_idem c : upper_char (upper_char c) = upper_char c.
Proof. destruct c as [[] [] [] [] [] [] [] []]; vm_compute; reflexivity. Qed.

Lemma upper_lower_char c : upper_char (lower_char c) = upper_char c.
Proof. destruct c as [[] [] [] [] [] [] [] []]; vm_compute; reflexivity. Qed.

Lemma upper_upper s : upper (upper s) = upper s.
Proof.
  unfold upper. rewrite chars_of_chars, map_map. f_equal.
  apply map_ext. intros c. apply upper_char_idem.
Qed.

Lemma upper_lower s : upper (lower s) = upper s.
Proof.
  unfold upper, lower. rewrite chars_of_chars, map_map. f_equal.
  apply map_ext. intros c. apply upper_lower_char.
Qed.

Lemma of_chars_app l1 l2 : of_chars (l1 ++ l2) = (of_chars l1 ++ of_chars l2)%string.
Proof. unfold of_chars. induction l1; simpl; by rewrite ?IHl1. Qed.

Lemma upper_app s t : upper (s ++ t)%string = (upper s ++ upper t)%string.
Proof. unfold upper. by rewrite chars_app, map_app, of_chars_app. Qed.

Lemma prefix_empty s : String.prefix "" s = true.
Proof. by destruct s. Qed.

Lemma prefix_app p s t :
  String.prefix p s = true -> String.prefix p (s ++ t)%string = true.
Proof.
  revert s. induction p as [|a p IH]; intros s.
  - intros _. apply prefix_empty.
  - destruct s as [|b s]; simpl; [done|].
    destruct (ascii_dec a b); [apply IH|done].
Qed.

Lemma prefix_app_inv x u v :
  String.prefix x (u ++ v)%string = true ->
  String.prefix x u = true \/ String.prefix u x = true.
Proof.
  revert u. induction x as [|a x IH]; intros u.
  - intros _. left. apply prefix_empty.
  - destruct u as [|b u]; simpl; [by right|].
    destruct (ascii_dec a b) as [->|]; [|done].
    destruct (ascii_dec b b); [apply IH|done].
Qed.

Lemma prefix_trans y u x :
  String.prefix y u = true -> String.prefix u x = true -> String.prefix y x = true.
Proof.
  revert u x. induction y as [|a y IH]; intros u x.
  - intros _ _. apply prefix_empty.
  - destruct u as [|b u]; simpl; [done|].
    destruct (ascii_dec a b) as [->|]; [|done].
    destruct x as [|c x]; [done|]. simpl.
    destruct (ascii_dec b c) as [->|]; [|done].
    apply IH.
Qed.

Lemma scan_patterns_found u table p :
  scan_patterns u table = Some p ->
  exists row y, row ∈ table /\ y ∈ row.2 /\ row.1 = p /\ String.prefix y u = true.
Proof.
  induction table as [|[prod prefixes] table IH]; simpl; [done|].
  destruct (existsb (startswith u) prefixes) eqn:E.
  - intros [= <-]. apply existsb_exists in E as (y & Hy & Hp).
    exists (prod, prefixes), y. repeat split; [by left|by apply list_elem_of_In|done].
  - intros H. destruct (IH H) as (row & y & H1 & H2 & H3 & H4).
    exists row, y. repeat split; try done. by right.
Qed.

Lemma scan_patterns_extend u v table p :
  rows_apart table = true ->
  scan_patterns u table = Some p ->
  scan_patterns (u ++ v)%string table = Some p.
Proof.
  induction table as [|[prod prefixes] table IH]; simpl; [done|].
  intros [Hhere Hrest]%andb_true_iff.
  destruct (existsb (startswith u) prefixes) eqn:E.
  - intros [= <-]. apply existsb_exists in E as (y & Hy & Hp).
    assert (existsb (startswith (u ++ v)%string) prefixes = true) as ->; [|done].
    apply existsb_exists. exists y. split; [done|]. by apply prefix_app.
  - intros H.
    assert (existsb (startswith (u ++ v)%string) prefixes = false) as ->; [|by apply IH].
    apply not_true_is_false. intros (x & Hx & Hp)%existsb_exists.
    destruct (prefix_app_inv _ _ _ Hp) as [Hxu|Hux].
    + assert (existsb (startswith u) prefixes = true); [|congruence].
      apply existsb_exists. by exists x.
    + destruct (scan_patterns_found _ _ _ H) as (row & y & Hrow & Hy & _ & Hyu).
      pose proof (prefix_trans _ _ _ Hyu Hux) as Hyx.
      rewrite forallb_forall in Hhere. specialize (Hhere x Hx).
      rewrite forallb_forall in Hhere.
      specialize (Hhere row (proj1 (list_elem_of_In _ _) Hrow)).
      rewrite forallb_forall in Hhere.
      specialize (Hhere y (proj1 (list_elem_of_In _ _) Hy)).
      by rewrite Hyx in Hhere.
Qed.

(** ** Typing the serials back *)

Lemma split_go_run sep cur l rest :
  Forall (fun c => c <> sep) l ->
  split_go sep cur (l ++ rest) = split_go sep (rev l ++ cur) rest.
Proof.
  revert cur. induction l as [|c l IH]; intros cur H; simpl; [done|].
  inversion H as [|? ? Hc Hl]; subst.
  destruct (Ascii.eqb c sep) eqn:E; [by apply Ascii.eqb_eq in E|].
  rewrite IH by done. by rewrite <- app_assoc.
Qed.

Lemma split_join items :
  items <> [] ->
  Forall (fun s => Forall (fun c => c <> newline) (chars s)) items ->
  split newline (join LF_text items) = items.
Proof.
  unfold split. induction items as [|p items IH]; [done|]. intros _ H.
  inversion H as [|? ? Hp Hitems]; subst.
  destruct items as [|q items].
  - simpl. rewrite <- (app_nil_r (chars p)), split_go_run by done.
    simpl. by rewrite app_nil_r, rev_involutive, of_chars_chars.
  - change (join LF_text (p :: q :: items))
      with (p ++ LF_text ++ join LF_text (q :: items))%string.
    rewrite !chars_app, split_go_run by done.
    change (chars LF_text) with [newline]. rewrite app_nil_r.
    cbn [app split_go]. rewrite Ascii.eqb_refl, rev_involutive, of_chars_chars.
    f_equal.
    by apply IH.
Qed.

Lemma serial_char_marks c :
  serial_char c = true ->
  c <> newline /\ (Ascii.eqb c "?" || Ascii.eqb c "&") = false.
Proof.
  destruct c as [[] [] [] [] [] [] [] []]; vm_compute; intros; split; congruence.
Qed.

Lemma search_s_param_none l :
  Forall (fun c => serial_char c = true) l -> search_s_param l = None.
Proof.
  induction 1 as [|c l Hc _ IH]; cbn [search_s_param]; [done|].
  destruct (serial_char_marks c Hc) as [_ ->]. exact IH.
Qed.

Lemma clean_line_plain s : plain s -> 2 <= len s -> clean_line s = Some s.
Proof.
  intros Hp Hl. unfold clean_line. cbv zeta.
  rewrite (strip_plain s Hp), (search_s_param_none _ Hp).
  assert (String.eqb s "" = false) as ->.
  { apply String.eqb_neq. intros ->. simpl in Hl. lia. }
  apply Nat.leb_le in Hl. by rewrite Hl.
Qed.

Lemma clean_lines_plain items :
  Forall (fun s => plain s /\ 2 <= len s) items -> omap clean_line items = items.
Proof.
  induction 1 as [|s items [Hp Hl] _ IH]; [done|].
  change (omap clean_line (s :: items))
    with (match clean_line s with
          | Some y => y :: omap clean_line items
          | None => omap clean_line items
          end).
  by rewrite (clean_line_plain s Hp Hl), IH.
Qed.

(** A detected product is a name of the device table. *)
Lemma detect_product_in_table serial product :
  detect_product serial = Some product -> product ∈ DEVICE_NAMES.
Proof.
  intros H. destruct (scan_patterns_found _ _ _ H) as (row & y & Hrow & _ & <- & _).
  assert (Hall : Forall (fun row => row.1 ∈ DEVICE_NAMES) patterns).
  { apply (bool_decide_unpack _). vm_compute. reflexivity. }
  rewrite Forall_forall in Hall. by apply Hall.
Qed.

Lemma detect_product_named serial product :
  detect_product serial = Some product -> product <> ""%string.
Proof.
  intros H%detect_product_in_table.
  assert (Hall : Forall (fun name => name <> ""%string) DEVICE_NAMES).
  { apply (bool_decide_unpack _). vm_compute. reflexivity. }
  rewrite Forall_forall in Hall. by apply Hall.
Qed.


End IntakeFacts.

(* ===================================================================== *)
(** * Facts about the sums of the ledger *)
(* ===================================================================== *)

Module SumFacts.
Import Ledger Sums LedgerFacts.
Local Open Scope Z_scope.

Lemma total_empty : total ∅ = 0.
Proof. unfold total. apply map_fold_empty. Qed.

Lemma total_insert_fresh (m : gmap string Z) k v :
  m !! k = None -> total (<[k:=v]> m) = v + total m.
Proof.
  intros H. unfold total. apply (map_fold_insert_L (fun _ v acc => v + acc)); [|done].
  intros. lia.
Qed.

(** Writing a value under a key moves the sum by the difference to the
    value that was there, 0 when the key is new. *)
Lemma total_insert (m : gmap string Z) k v :
  total (<[k:=v]> m) = total m - default 0 (m !! k) + v.
Proof.
  destruct (m !! k) as [x|] eqn:E; simpl.
  - rewrite <- (insert_delete_eq m k v).
    rewrite total_insert_fresh by apply lookup_delete_eq.
    rewrite <- (insert_id m k x E) at 2.
    rewrite <- (insert_delete_eq m k x).
    rewrite total_insert_fresh by apply lookup_delete_eq. lia.
  - rewrite total_insert_fresh by done. lia.
Qed.

Lemma over_days_insert field (m : gmap string day) k d :
  field empty_day = 0 ->
  over_days field (<[k:=d]> m) =
    over_days field m - field (default empty_day (m !! k)) + field d.
Proof.
  intros H0. unfold over_days. rewrite fmap_insert, total_insert, lookup_fmap.
  destruct (m !! k); simpl; lia.
Qed.

Lemma balanced_empty : balanced empty_statistics.
Proof.
  unfold balanced, over_days. simpl. rewrite !fmap_empty, total_empty. done.
Qed.

Lemma record_in_balanced today n product ok data :
  balanced data -> balanced (record_in today n product ok data).
Proof.
  intros (Hp & Hs & Hb & Hok & Herr). unfold balanced, record_in. simpl.
  rewrite total_insert, !over_days_insert by reflexivity. simpl.
  rewrite <- Hp, <- Hs, <- Hb, <- Hok, <- Herr.
  destruct (products data !! product), (daily data !! today), ok; simpl; repeat split; lia.
Qed.

Lemma record_batch_balanced today w n product ok f :
  balanced (Statistics_load f) ->
  balanced (Statistics_load (record_batch today w n product ok f)).
Proof.
  intros H. unfold record_batch, Statistics_save, save.
  destruct w; simpl.
  - by apply record_in_balanced.
  - exact H.
  - apply balanced_empty.
Qed.

Lemma well_kept_nil : well_kept [].
Proof. split; [simpl; unfold MAX_BATCHES; lia | constructor]. Qed.

Lemma add_well_kept now w sns product ok f :
  well_kept (load [] f) ->
  well_kept (load [] (BatchHistory_add now w sns product ok f)).
Proof.
  intros [Hlen Hcount]. unfold BatchHistory_add, save.
  destruct w; cbn [load]; [|by split|apply well_kept_nil].
  split.
  - rewrite length_take. lia.
  - apply Forall_take. by constructor.
Qed.

Lemma log_batches_well_kept cs f :
  well_kept (load [] f) -> well_kept (load [] (log_batches cs f)).
Proof.
  revert f. induction cs as [|c cs IH]; intros f H; [exact H|].
  simpl. apply IH. by apply add_well_kept.
Qed.

Lemma log_batches_app cs1 cs2 f :
  log_batches (cs1 ++ cs2) f = log_batches cs2 (log_batches cs1 f).
Proof. unfold log_batches. apply fold_left_app. Qed.

Lemma take_cons_take {A} n (b : A) l :
  take (S n) (b :: take (S n) l) = take (S n) (b :: l).
Proof. simpl. f_equal. rewrite take_take. f_equal. lia. Qed.

(** With a disk that takes every write, the file holds the newest
    fifty batches, newest first. *)
Lemma log_batches_written cs f :
  Forall (fun c => logged_write c = Written) cs ->
  (length (load [] f) <= MAX_BATCHES)%nat ->
  load [] (log_batches cs f) =
    take MAX_BATCHES (rev (map logged_batch cs) ++ load [] f).
Proof.
  intros H Hlen. induction cs as [|c cs IH] using rev_ind.
  - simpl. by rewrite take_ge.
  - apply Forall_app in H as [Hcs Hc]. apply Forall_cons_1 in Hc as [Hc _].
    rewrite log_batches_app. simpl. unfold log_one, BatchHistory_add. rewrite Hc.
    cbn [save load]. rewrite map_app, rev_app_distr. simpl.
    change (Batch _ _ _ _ _) with (logged_batch c).
    rewrite (IH Hcs). apply (take_cons_take 49).
Qed.

Lemma record_batches_app cs1 cs2 f :
  record_batches (cs1 ++ cs2) f = record_batches cs2 (record_batches cs1 f).
Proof. unfold record_batches. apply fold_left_app. Qed.

Lemma record_batches_balanced cs f :
  balanced (Statistics_load f) ->
  balanced (Statistics_load (record_batches cs f)).
Proof.
  revert f. induction cs as [|c cs IH]; intros f H; [exact H|].
  simpl. apply IH. by apply record_batch_balanced.
Qed.

End SumFacts.

(* ===================================================================== *)
(** * Facts about what a run types *)
(* ===================================================================== *)

Module TypingFacts.
Import PyStr Robot MonadFacts StepFacts RunFacts Typing.
Local Open Scope list_scope.

Lemma typed_app l1 l2 : typed (l1 ++ l2) = typed l1 ++ typed l2.
Proof.
  induction l1 as [|c l1 IH]; [reflexivity|].
  simpl. destruct (is_fill c.1); simpl; by rewrite IH.
Qed.

Lemma types_seq (m n : M unit) t1 t2 :
  oblivious m -> oblivious n -> types m t1 -> types n t2 ->
  types (m ;; n) (t1 ++ t2).
Proof.
  intros Hm Hn [Hp1 He1] [Hp2 He2]. unfold types.
  rewrite did_seq, fate_seq, typed_app by done.
  destruct (fate m) as [[]|e|b].
  - rewrite He1 by done. split.
    + by apply prefix_app.
    + intros H. by rewrite He2.
  - split; [|discriminate]. rewrite app_nil_r. by apply prefix_app_r.
  - split; [|discriminate]. rewrite app_nil_r. by apply prefix_app_r.
Qed.

Lemma step_types o q k : types (step o q k) (entered_in o q k).
Proof.
  unfold types, entered_in.
  do 11 (destruct k as [|k];
         [ try (run_block o; cbn [typed is_fill fst];
                (split; [ by eexists | try discriminate; reflexivity ])) |]).
  split; [by eexists | reflexivity].
Qed.

Lemma workflow_types o q : types (workflow o q) (entered o q).
Proof.
  unfold workflow, entered. cbn [seq flat_map]. rewrite app_nil_r.
  repeat match goal with
         | |- types (step o q ?k ;; _) _ =>
             apply (types_seq _ _ (entered_in o q k));
             [auto 20 with oblivious | auto 20 with oblivious | apply step_types |]
         end.
  apply step_types.
Qed.

(** The page calls of a run are the ones of its workflow. *)
Lemma run_page_calls o q r w :
  is_running r = false -> acquires o r ->
  calls (world_of (run_marathon o q r w)) = calls w ++ did (workflow o q).
Proof. run_cases o q r; finish_case. Qed.

End TypingFacts.

(* ===================================================================== *)
(** * Facts about [cleanup] and the worker *)
(* ===================================================================== *)

Module TeardownFacts.
Import PyStr Ledger Robot Server MonadFacts StepFacts RunFacts Typing.
Local Open Scope list_scope.

Ltac open_cleanup :=
  unfold run_cleanup, cleanup, cleanup_ops, close, set_playwright, set_browser,
    set_self, get, pass, try_finally, try_except, mbind, M_bind, mret, M_ret.

(** [cleanup] from the caller's side, in one equation. *)
Lemma cleanup_behaviour o r w :
  run_cleanup o r w =
    (RobotObj None None (is_running r),
     World (history w ++ map Did (cleanup_ops o r)) (fresh w)).
Proof.
  destruct w as [h n]. destruct r as [[e|] [b|] running];
    open_cleanup; tidy;
    repeat match goal with
           | |- context [raises o ?s] => destruct (raises o s); tidy
           end;
    cbn [map]; rewrite <- ?app_assoc, ?app_nil_r; reflexivity.
Qed.

Lemma operations_did l : operations (map Did l) = l.
Proof. induction l as [|x l IH]; [reflexivity|]. simpl. by rewrite IH. Qed.

Lemma events_did l : events (map Did l) = [].
Proof. induction l as [|x l IH]; [reflexivity|]. simpl. by rewrite IH. Qed.

Lemma page_calls_did l : page_calls (map Did l) = [].
Proof. induction l as [|x l IH]; [reflexivity|]. simpl. by rewrite IH. Qed.

Ltac own_case :=
  intros; eexists; split;
  [ rewrite <- ?app_assoc; cbn [app];
    first [ reflexivity | symmetry; apply app_nil_r ]
  | intros h; rewrite ?elem_of_cons, ?elem_of_nil; split; intros H;
    repeat match goal with
           | H : _ \/ _ |- _ => destruct H
           | H : False |- _ => destruct H
           | H : Created _ _ = Created _ _ |- _ => injection H as ?; subst
           | H : Created _ _ = Closing _ _ |- _ => discriminate H
           end; try discriminate; tauto ].

(** What a worker creates and closes, from the start of its run to
    the end of its [cleanup]. *)
Lemma run_task_ops o e q p :
  exists added,
    ops (outer (run_task o e q p)) = ops (outer p) ++ added /\
    closes_its_own added.
Proof.
  unfold run_task, conclude, closes_its_own, MarathonRobot.
  open_run. open_cleanup. tidy.
  repeat match goal with
         | |- context [raises o ?s] => destruct (raises o s); tidy
         | |- context [workflow o q ?f] =>
             rewrite (proj1 (workflow_oblivious o q) f);
             let E := fresh "E" in
             destruct (fate (workflow o q)) as [[]|?|?] eqn:E; tidy
         end;
  cbn [outer]; tidy; views; own_case.
Qed.

End TeardownFacts.

(* ===================================================================== *)
(** * Facts about the verification loop *)
(* ===================================================================== *)

Module VerifyFacts.
Import PyStr Serials Verify.
Local Open Scope list_scope.



Lemma verify_loop_dom net k l m :
  dom (verify_loop net k l m) = dom m ∪ list_to_set l.
Proof.
  revert k m. induction l as [|x l IH]; intros k m; cbn [verify_loop].
  - by rewrite list_to_set_nil, (right_id_L _ _).
  - rewrite IH, dom_insert_L, list_to_set_cons.
    by rewrite (comm_L _ {[x]} (dom m)), <- (assoc_L _).
Qed.

Lemma verify_loop_size net k l m :
  size (verify_loop net k l m) <= size m + length l.
Proof.
  revert k m. induction l as [|x l IH]; intros k m; simpl; [lia|].
  etransitivity; [apply IH|]. rewrite map_size_insert.
  destruct (m !! x); simpl; lia.
Qed.


Lemma not_verified_size_from l (m : gmap string string) :
  size (fold_left (fun results serial =>
               <[serial := "NOT VERIFIED - No credentials"%string]> results) l m)
    <= size m + length l.
Proof.
  revert m. induction l as [|x l IH]; intros m; simpl; [lia|].
  etransitivity; [apply IH|]. rewrite map_size_insert.
  destruct (m !! x); simpl; lia.
Qed.

Lemma not_verified_dom_from l (m : gmap string string) :
  dom (fold_left (fun results serial =>
               <[serial := "NOT VERIFIED - No credentials"%string]> results) l m)
    = dom m ∪ list_to_set l.
Proof.
  revert m. induction l as [|x l IH]; intros m; cbn [fold_left].
  - by rewrite list_to_set_nil, (right_id_L _ _).
  - rewrite IH, dom_insert_L, list_to_set_cons.
    by rewrite (comm_L _ {[x]} (dom m)), <- (assoc_L _).
Qed.

Lemma verify_results_size net serials cookie token :
  size (results_of (verify_serials_api net serials cookie token)) <= length serials.
Proof.
  unfold verify_serials_api.
  destruct (String.eqb cookie "" || String.eqb token ""); cbn [results_of].
  - pose proof (not_verified_size_from serials ∅) as H.
    rewrite map_size_empty in H. exact H.
  - pose proof (verify_loop_size net 0 serials ∅) as H.
    rewrite map_size_empty in H. exact H.
Qed.

Lemma count_passed_size (m : gmap string string) : count_passed m <= size m.
Proof.
  unfold count_passed. rewrite <- length_map_to_list. apply length_filter.
Qed.

End VerifyFacts.

(* ===================================================================== *)
(** * Facts about the grid of the label sheet *)
(* ===================================================================== *)

Module LabelFacts.
Import Labels.
Local Open Scope list_scope.

Lemma mod_succ i cap :
  0 < cap ->
  S i mod cap = if (S (i mod cap) =? cap)%nat then 0 else S (i mod cap).
Proof.
  intros Hcap.
  pose proof (Nat.div_mod_eq i cap) as Hi.
  pose proof (Nat.mod_upper_bound i cap ltac:(lia)) as Hlt.
  destruct (Nat.eqb_spec (S (i mod cap)) cap) as [He|Hne]; symmetry.
  - apply (Nat.mod_unique _ _ (S (i / cap))); [lia|]. nia.
  - apply (Nat.mod_unique _ _ (i / cap)); [lia|]. nia.
Qed.

Lemma page_started col row (s : string) cols rows :
  0 < cols * rows ->
  (col, row) = (0 mod cols, 0 / cols) ->
  in_reading_order cols rows [(col, row, s)].
Proof.
  intros Hcap [= -> ->]. split; [simpl; lia|].
  intros [|k] x Hx; [|done]. by injection Hx as <-.
Qed.

Lemma page_extended cols rows cur (s : string) :
  in_reading_order cols rows cur ->
  length cur < cols * rows ->
  in_reading_order cols rows
    (cur ++ [(length cur mod cols, length cur / cols, s)]).
Proof.
  intros [Hlen Hcells] Hlt. split; [rewrite length_app; simpl; lia|].
  intros k x Hx. apply lookup_app_Some in Hx as [Hx|[Hk Hx]].
  - by apply Hcells.
  - apply list_lookup_singleton_Some in Hx as [Hk0 <-].
    replace k with (length cur) by lia. reflexivity.
Qed.

(** The loop from label [i] on, with the page begun so far. *)
Lemma layout_from_pages cols rows serials : forall i cur,
  0 < cols * rows ->
  in_reading_order cols rows cur ->
  (length cur < cols * rows -> i mod (cols * rows) = length cur) ->
  (length cur = cols * rows -> i mod (cols * rows) = 0 /\ 0 < i) ->
  exists l,
    layout_from cols rows i serials = Some l /\
    Forall (in_reading_order cols rows) (pages_from cur l) /\
    concat (map (map snd) (pages_from cur l)) = map snd cur ++ serials.
Proof.
  induction serials as [|s rest IH]; intros i cur Hcap Hcur Hlt Heq.
  - exists []. split; [reflexivity|]. cbn [pages_from]. split.
    + apply Forall_cons_2; [exact Hcur | apply Forall_nil_2].
    + simpl. reflexivity.
  - cbn [layout_from]. unfold place.
    destruct (Nat.eqb_spec (cols * rows) 0) as [?|_]; [lia|].
    pose proof (proj1 Hcur) as Hlen.
    pose proof (mod_succ i _ Hcap) as Hs.
    destruct (Nat.eqb_spec (i mod (cols * rows)) 0) as [Hz|Hnz];
      [destruct (Nat.ltb_spec 0 i) as [Hi|Hi]|]; cbn [andb app].
    + (* a new page *)
      rewrite Hz in *.
      destruct (IH (S i) [(0 mod cols, 0 / cols, s)]) as (l & -> & Hp & Hc).
      * exact Hcap.
      * by apply page_started.
      * simpl. intros H1. rewrite Hs.
        destruct (Nat.eqb_spec 1 (cols * rows)); [lia|done].
      * simpl. intros H1. rewrite Hs.
        destruct (Nat.eqb_spec 1 (cols * rows)); [split; lia|lia].
      * eexists. split; [reflexivity|]. cbn [pages_from app]. split.
        -- by constructor.
        -- cbn [map concat]. rewrite Hc. reflexivity.
    + (* the first label of all *)
      assert (i = 0) as -> by lia.
      assert (Hnil : length cur = 0).
      { destruct (decide (length cur = cols * rows)) as [Hfull|Hnot].
        - destruct (Heq Hfull). lia.
        - rewrite <- Hlt by lia. exact Hz. }
      destruct cur; [clear Hnil|discriminate Hnil]. rewrite Hz.
      destruct (IH 1 [(0 mod cols, 0 / cols, s)]) as (l & -> & Hp & Hc).
      * exact Hcap.
      * by apply page_started.
      * simpl. intros H1. rewrite Hs, Hz.
        destruct (Nat.eqb_spec 1 (cols * rows)); [lia|done].
      * simpl. intros H1. rewrite Hs, Hz.
        destruct (Nat.eqb_spec 1 (cols * rows)); [split; lia|lia].
      * eexists. split; [reflexivity|]. cbn [pages_from app]. split; [exact Hp|].
        rewrite Hc. reflexivity.
    + (* the next cell of the page *)
      assert (Hroom : length cur < cols * rows).
      { destruct (decide (length cur = cols * rows)) as [Hfull|Hnot]; [|lia].
        destruct (Heq Hfull). lia. }
      specialize (Hlt Hroom). rewrite Hlt in *.
      destruct (IH (S i) (cur ++ [(length cur mod cols, length cur / cols, s)]))
        as (l & -> & Hp & Hc).
      * exact Hcap.
      * by apply page_extended.
      * rewrite length_app. simpl. intros H1. rewrite Hs.
        destruct (Nat.eqb_spec (S (length cur)) (cols * rows)); lia.
      * rewrite length_app. simpl. intros H1. rewrite Hs.
        destruct (Nat.eqb_spec (S (length cur)) (cols * rows)); [split; lia|lia].
      * eexists. split; [reflexivity|]. cbn [pages_from app]. split; [exact Hp|].
        rewrite Hc, map_app, <- app_assoc. reflexivity.
Qed.

End LabelFacts.


(* ===================================================================== *)
(** * The properties of the specification *)
(* ===================================================================== *)

Import PyStr Serials Ledger Robot Server Samples.
Import MonadFacts StepFacts RunFacts LedgerFacts ServerFacts.
Local Open Scope list_scope.

(** C1 (what the code does): the guard of [run_marathon] looks at the
    flag of the robot it is called on, and every accepted socket event
    gets a robot of its own.  So two accepted events that arrive one
    after the other are both past the guard at the same time: two
    executions are in flight, none was turned away, and nothing was
    sent to say "busy". *)
Theorem guard_is_per_robot (p : process) (d1 d2 : payload) (q1 q2 : request) :
  handle_marathon d1 = inr q1 ->
  handle_marathon d2 = inr q2 ->
  let p' := run_actions p [Arrives d1; Arrives d2] in
  in_flight p' = in_flight p + 2 /\
  turned_away p' = turned_away p /\
  outbox p' = outbox p /\
  outer p' = outer p.
Proof.
  intros H1 H2. unfold run_actions. cbn [fold_left].
  set (p1 := react p (Arrives d1)).
  rewrite (arrival_accepted p1 d2 q2 H2).
  rewrite in_flight_app, turned_away_app by reflexivity.
  subst p1. rewrite (arrival_accepted p d1 q1 H1).
  rewrite in_flight_app, turned_away_app by reflexivity.
  repeat split. lia.
Qed.

Lemma guard_is_per_robot_witness :
  handle_marathon order = inr batch /\
  in_flight (run_actions idle [Arrives order; Arrives order]) = 2.
Proof.
  split; [reflexivity|].
  exact (proj1 (guard_is_per_robot idle order order batch batch eq_refl eq_refl)).
Defined.

(** C2 (counterexample): the "mark as done" button never shows up, the
    wait for it raises, and the run still returns [True]. *)
Lemma done_button_missing_returns_true :
  raises done_button_missing S10_wait_for = Some "Timeout 10000ms exceeded."%string /\
  result_of (run_marathon done_button_missing batch MarathonRobot nothing) = Value true.
Proof. split; vm_compute; reflexivity. Qed.

(** C2 (amended): a call that passed the guard returns [True] exactly
    when the resources were acquired and steps 1 to 9 ran to their end;
    what raises inside step 10 is swallowed there and has no say. *)
Theorem returns_true_iff_steps_1_to_9 (o : oracle) (q : request) (r : robot) (w : world) :
  is_running r = false ->
  result_of (run_marathon o q r w) = Value true <->
  acquires o r /\ forall k, 1 <= k <= 9 -> completes o q k.
Proof.
  intros Hr. rewrite (run_true_iff o q r w Hr), workflow_completes_iff. tauto.
Qed.

Lemma returns_true_iff_steps_1_to_9_witness :
  is_running MarathonRobot = false /\
  (acquires done_click_fails MarathonRobot /\
   forall k, 1 <= k <= 9 -> completes done_click_fails batch k) /\
  result_of (run_marathon done_click_fails batch MarathonRobot nothing) = Value true.
Proof.
  assert (Hsteps : acquires done_click_fails MarathonRobot /\
                   forall k, 1 <= k <= 9 -> completes done_click_fails batch k).
  { split; [reflexivity|]. intros k Hk.
    do 10 (destruct k as [|k]; [try lia; vm_compute; reflexivity|]). lia. }
  split; [reflexivity|]. split; [exact Hsteps|].
  exact (proj2 (returns_true_iff_steps_1_to_9 done_click_fails batch MarathonRobot
                  nothing eq_refl) Hsteps).
Defined.

(** C3 (counterexample): a successful run on a new robot emits 14
    events, not 12: the two notices of [ensure_browser] come first. *)
Lemma first_successful_run_emits_14 :
  result_of (run_marathon smooth batch MarathonRobot nothing) = Value true /\
  length (sink (world_of (run_marathon smooth batch MarathonRobot nothing))) = 14.
Proof. split; vm_compute; reflexivity. Qed.

(** C3 (amended): a successful run emits, in this order, one notice for
    each of the engine and the browser it had to create, the ten step
    announcements with the login confirmation after the first, and the
    success event; that is 12 events for a robot that holds both
    handles and up to 14 otherwise.  It returns [True]. *)
Theorem successful_run_events (o : oracle) (q : request) (r : robot) (w : world) :
  is_running r = false ->
  result_of (run_marathon o q r w) = Value true ->
  sink (world_of (run_marathon o q r w)) =
    sink w ++ notices r ++ trail q 10 ++ [completed] /\
  length (trail q 10 ++ [completed]) = 12 /\
  length (notices r) <= 2 /\
  (playwright r <> None -> browser r <> None -> notices r = []).
Proof.
  intros Hr Hres.
  destruct (proj1 (run_true_iff o q r w Hr) Hres) as [Ha Hw].
  destruct (run_after_acquire o q r w Hr Ha) as [_ Hsink].
  rewrite Hsink, Hw, (workflow_success o q Hw).
  repeat split.
  - unfold notices. destruct (playwright r), (browser r); simpl; lia.
  - unfold notices. destruct (playwright r), (browser r); simpl; congruence.
Qed.

Lemma successful_run_events_witness :
  is_running warm = false /\
  result_of (run_marathon smooth batch warm warmed) = Value true /\
  sink (world_of (run_marathon smooth batch warm warmed)) =
    trail batch 10 ++ [completed].
Proof.
  split; [reflexivity|]. split; [reflexivity|].
  exact (proj1 (successful_run_events smooth batch warm warmed eq_refl eq_refl)).
Defined.










(** C7 (what the code does): when closing the page raises, the
    [except] of the teardown is reached before the context is closed.
    The run ends with its page closed once and its context never
    closed; the flag is cleared all the same. *)
Theorem page_close_failure_skips_context (o : oracle) (q : request) (r : robot) (w : world) :
  is_running r = false ->
  acquires o r ->
  raises o PageClose <> None ->
  is_running (robot_of (run_marathon o q r w)) = false /\
  exists pre c p,
    ops (world_of (run_marathon o q r w)) =
      ops w ++ pre ++ [Created Context c; Created Page p; Closing Page p].
Proof.
  intros Hr Ha Hp. split.
  - by apply run_clears_flag.
  - by apply run_teardown_cut_short.
Qed.

Lemma page_close_failure_skips_context_witness :
  is_running MarathonRobot = false /\
  acquires page_close_fails MarathonRobot /\
  raises page_close_fails PageClose <> None /\
  is_running (robot_of (run_marathon page_close_fails batch MarathonRobot nothing)) = false /\
  ops (world_of (run_marathon page_close_fails batch MarathonRobot nothing)) =
    [Created Engine 0; Created Browser 1; Created Context 2; Created Page 3;
     Closing Page 3].
Proof.
  assert (Hp : raises page_close_fails PageClose <> None) by discriminate.
  split; [reflexivity|]. split; [reflexivity|]. split; [exact Hp|]. split.
  - exact (proj1 (page_close_failure_skips_context page_close_fails batch MarathonRobot
                    nothing eq_refl eq_refl Hp)).
  - vm_compute. reflexivity.
Defined.

(** C8: the three detections of the specification. *)
Theorem detect_product_examples :
  detect_product "HEX-P-SOMETHING-123" = Some "HEX-P"%string /\
  detect_product "HEXTC-0099" = Some "HEX-T-C"%string /\
  detect_product "ZZZ-001" = None.
Proof. repeat split; vm_compute; reflexivity. Qed.

(** C9: the validation of ["AB", "AB", "a*b", "x"]. *)
Theorem validate_serials_example :
  validate_serials ["AB"; "AB"; "a*b"; "x"]%string =
    mk_results ["AB"%string] ["AB"%string]
               [("a*b", "Invalid characters"); ("x", "Too short")]%string.
Proof. vm_compute. reflexivity. Qed.

(** C10: a sequence of [record_batch] calls on a statistics file whose
    contents are in step leaves a file whose contents are in step: the
    total of batches is the successes plus the errors, and so it is in
    every day. *)
Theorem record_batch_keeps_count (cs : list booking) (f : file Ledger.statistics) :
  counted (Statistics_load f) ->
  counted (Statistics_load (record_batches cs f)).
Proof.
  revert f. induction cs as [|c cs IH]; intros f H; simpl.
  - exact H.
  - apply IH. unfold book. by apply record_batch_counted.
Qed.

Lemma record_batch_keeps_count_witness :
  counted (Statistics_load Missing) /\
  counted (Statistics_load
             (record_batches [monday_ok; monday_lost; tuesday_failed] Missing)).
Proof.
  split; [exact counted_empty|].
  exact (record_batch_keeps_count [monday_ok; monday_lost; tuesday_failed] Missing
           counted_empty).
Defined.

(* ===================================================================== *)
(** * Further properties of the code *)
(* ===================================================================== *)

Import Routes Sums Typing MoreSamples.
Import PyStrFacts IntakeFacts SumFacts TypingFacts TeardownFacts.






(** X5: [detect_product] does not look at the case of the serial. *)
Theorem detect_product_ignores_case (serial : string) :
  detect_product (upper serial) = detect_product serial /\
  detect_product (lower serial) = detect_product serial.
Proof.
  unfold detect_product. by rewrite upper_upper, upper_lower.
Qed.

(** X6: a detected product is one of [DEVICE_NAMES]. *)
Theorem detect_product_known_device (serial product : string) :
  detect_product serial = Some product -> product ∈ DEVICE_NAMES.
Proof.
  apply detect_product_in_table.
Qed.

Lemma detect_product_known_device_witness :
  detect_product "hexls-0042" = Some "HEX-L-S"%string /\ "HEX-L-S"%string ∈ DEVICE_NAMES.
Proof.
  split; [reflexivity|]. exact (detect_product_known_device "hexls-0042" "HEX-L-S" eq_refl).
Defined.

(** X7: a detection depends on the head of the serial only: what is
    detected for a text is detected for every text that extends it. *)
Theorem detect_product_prefix_only (serial more product : string) :
  detect_product serial = Some product ->
  detect_product (serial ++ more)%string = Some product.
Proof.
  unfold detect_product. rewrite upper_app.
  apply scan_patterns_extend. vm_compute. reflexivity.
Qed.

Lemma detect_product_prefix_only_witness :
  detect_product "HEXP" = Some "HEX-P"%string /\
  detect_product ("HEXP" ++ "-2024-0017")%string = Some "HEX-P"%string.
Proof.
  split; [reflexivity|]. exact (detect_product_prefix_only "HEXP" "-2024-0017" "HEX-P" eq_refl).
Defined.

(** X8: serials made of class characters, two or more each, survive
    the trip through the text area: joined by line feeds and cleaned,
    they come back as the same list. *)
Theorem clean_join_round_trip (serials : list string) :
  Forall (fun s => plain s /\ 2 <= len s) serials ->
  clean_serials (join LF_text serials) = serials.
Proof.
  intros H. destruct serials as [|p rest]; [reflexivity|].
  unfold clean_serials. rewrite split_join; [by apply clean_lines_plain|done|].
  eapply Forall_impl; [exact H|]. intros s [Hp _].
  eapply Forall_impl; [exact Hp|]. intros c Hc. by apply serial_char_marks.
Qed.

Lemma clean_join_round_trip_witness :
  Forall (fun s => plain s /\ 2 <= len s) ["SN001"; "SN-002.b"]%string /\
  clean_serials (join LF_text ["SN001"; "SN-002.b"]%string) = ["SN001"; "SN-002.b"]%string.
Proof.
  assert (H : Forall (fun s => plain s /\ 2 <= len s) ["SN001"; "SN-002.b"]%string).
  { repeat constructor; vm_compute; lia. }
  split; [exact H|]. exact (clean_join_round_trip _ H).
Defined.

(** X9: the totals of the statistics are the sums of their parts.
    When the serial total is the sum over the products and over the
    days, and the batch, success and error totals are the sums over the
    days, a sequence of [record_batch] calls leaves them so, whatever
    the disk does with each write. *)
Theorem statistics_totals_are_sums (cs : list booking) (f : file Ledger.statistics) :
  balanced (Statistics_load f) ->
  balanced (Statistics_load (record_batches cs f)).
Proof. apply record_batches_balanced. Qed.

Lemma statistics_totals_are_sums_witness :
  balanced (Statistics_load Missing) /\
  balanced (Statistics_load
              (record_batches [monday_ok; monday_lost; tuesday_failed] Missing)).
Proof.
  split; [exact balanced_empty|].
  exact (statistics_totals_are_sums [monday_ok; monday_lost; tuesday_failed] Missing
           balanced_empty).
Defined.

(** X10: what one [record_batch] does to the figures of a day.  When
    the write goes through, the day of the call gains the serials and
    one batch, and one success or one error; every other day reads as
    before.  A refused write changes nothing, and a torn write leaves a
    file from which every day reads as empty. *)
Theorem record_batch_day_figures (today_ d : string) (w : write) (n : Z)
        (product_ : string) (ok : bool) (f : file Ledger.statistics) :
  get_today d (record_batch today_ w n product_ ok f) =
    match w with
    | Written =>
        if String.eqb d today_ then
          let t := get_today d f in
          Day (Ledger.serials t + n) (batches t + 1)
              (bump ok (Ledger.success t)) (bump (negb ok) (errors t))
        else get_today d f
    | Refused => get_today d f
    | Torn => empty_day
    end.
Proof.
  unfold get_today, record_batch, Statistics_save, save. destruct w; [|reflexivity..].
  cbn [Statistics_load load record_in daily].
  destruct (String.eqb_spec d today_) as [->|Hne].
  - by rewrite lookup_insert_eq.
  - by rewrite lookup_insert_ne.
Qed.

(** X11: the batch history never holds more than [MAX_BATCHES]
    entries, and the count of every entry is the number of its
    serials: a sequence of [add] calls keeps both, whatever the disk
    does with each write. *)
Theorem batch_history_stays_bounded (cs : list logging) (f : file (list Ledger.batch)) :
  well_kept (load [] f) -> well_kept (load [] (log_batches cs f)).
Proof. apply log_batches_well_kept. Qed.

Lemma batch_history_stays_bounded_witness :
  well_kept (load [] Garbled) /\
  well_kept (load [] (log_batches [first_batch; lost_batch; second_batch] Garbled)).
Proof.
  split; [exact well_kept_nil|].
  exact (batch_history_stays_bounded [first_batch; lost_batch; second_batch] Garbled
           well_kept_nil).
Defined.

(** X12: with a disk that takes every write, the history reads as the
    added batches, newest first, in front of what was there, cut to
    the first [MAX_BATCHES]. *)
Theorem batch_history_newest_first (cs : list logging) (f : file (list Ledger.batch)) :
  Forall (fun c => logged_write c = Written) cs ->
  length (load [] f) <= MAX_BATCHES ->
  load [] (log_batches cs f) =
    take MAX_BATCHES (rev (map logged_batch cs) ++ load [] f).
Proof. apply log_batches_written. Qed.

Lemma batch_history_newest_first_witness :
  Forall (fun c => logged_write c = Written) [first_batch; second_batch] /\
  length (load [] (@Missing (list Ledger.batch))) <= MAX_BATCHES /\
  load [] (log_batches [first_batch; second_batch] Missing) =
    [logged_batch second_batch; logged_batch first_batch].
Proof.
  assert (H1 : Forall (fun c => logged_write c = Written) [first_batch; second_batch]).
  { repeat constructor. }
  assert (H2 : length (load [] (@Missing (list Ledger.batch))) <= MAX_BATCHES).
  { vm_compute. lia. }
  split; [exact H1|]. split; [exact H2|].
  exact (batch_history_newest_first [first_batch; second_batch] Missing H1 H2).
Defined.


(** X14: step 7 runs to its end exactly when one of its two ways to
    the serial dialog is open -- the wait and click on the first
    selector, or the click on the second one -- and the wait that
    follows goes through. *)
Theorem step7_has_a_second_way (o : oracle) (q : request) :
  completes o q 7 <->
  ((raises o S7_wait_for = None /\ raises o S7_click = None) \/
   raises o S7_fallback_click = None) /\
  raises o S7_wait = None.
Proof.
  unfold completes. run_block o; intuition congruence.
Qed.

(** X15: a run types nothing but the request.  Whatever happens, the
    texts it types are a prefix of: the e-mail and the password when
    the login form shows, the product, the number of serials, and the
    serials joined by line feeds.  A run that returns [True] typed all
    of them. *)
Theorem run_types_only_the_request (o : oracle) (q : request) (r : robot) (w : world) :
  let out := run_marathon o q r w in
  let texts :=
    (if contains "login" (lower (url_after_goto o))
     then [(S1_fill_login, odoo_email q); (S1_fill_password, odoo_password q)]
     else []) ++
    [(S4_fill, product q);
     (S5_fill, str_of_nat (length (Robot.serials q)));
     (S8_fill, join LF (Robot.serials q))] in
  exists added,
    typed (calls (world_of out)) = typed (calls w) ++ added /\
    added `prefix_of` texts /\
    (result_of out = Value true -> added = texts).
Proof.
  intros out texts.
  assert (Ht : types (workflow o q) texts).
  { replace texts with (entered o q); [apply workflow_types|].
    unfold entered, texts. cbn [seq flat_map entered_in].
    by destruct (contains "login" (lower (url_after_goto o))). }
  assert (Hnil : [] `prefix_of` texts) by apply prefix_nil.
  subst out. destruct (is_running r) eqn:Hr.
  - rewrite run_rejected by done. exists []. cbn [world_of result_of fst snd].
    rewrite app_nil_r. repeat split; [done|discriminate].
  - destruct (run_true_iff o q r w Hr) as [Htrue _].
    assert (Hdec : acquires o r \/ ~ acquires o r).
    { unfold acquires. destruct (acquire o (enter r (outside blank))).1 as [[]|?|?];
        [by left|by right|by right]. }
    destruct Hdec as [Ha|Ha].
    + exists (typed (did (workflow o q))).
      rewrite run_page_calls, typed_app by done.
      destruct Ht as [Hp He]. repeat split; [done|].
      intros H. apply He. by apply Htrue.
    + destruct (run_without_acquire o q r w Hr Ha) as (_ & -> & _).
      exists []. rewrite app_nil_r. repeat split; [done|].
      intros H. by destruct (Htrue H).
Qed.

(** X16: a refused login.  When step 1 leaves by its [return], the run
    hands back [False], the login form was filled and submitted and no
    later call was made, and the events are the notices, the
    announcement of step 1 and the login failure -- no error event. *)
Theorem refused_login_run (o : oracle) (q : request) (r : robot) (w : world) (b : bool) :
  is_running r = false ->
  acquires o r ->
  fate (step o q 1) = Return b ->
  result_of (run_marathon o q r w) = Value false /\
  calls (world_of (run_marathon o q r w)) =
    calls w ++
    [(S1_goto, LOGIN_URL); (S1_wait, "2000"%string);
     (S1_fill_login, odoo_email q); (S1_fill_password, odoo_password q);
     (S1_submit, "button[type='submit']"%string); (S1_wait_submit, "3000"%string)] /\
  sink (world_of (run_marathon o q r w)) =
    sink w ++ notices r ++ [announce q 1; login_failed].
Proof.
  intros Hr Ha H1.
  assert (Hf : fate (workflow o q) = Return b).
  { unfold workflow. rewrite fate_seq by auto 20 with oblivious. by rewrite H1. }
  assert (Hs : said (workflow o q) = [announce q 1; login_failed]).
  { unfold workflow. rewrite said_seq by auto 20 with oblivious.
    rewrite step1_said, H1. reflexivity. }
  assert (Hd : did (workflow o q) =
               [(S1_goto, LOGIN_URL); (S1_wait, "2000"%string);
                (S1_fill_login, odoo_email q); (S1_fill_password, odoo_password q);
                (S1_submit, "button[type='submit']"%string);
                (S1_wait_submit, "3000"%string)]).
  { unfold workflow. rewrite did_seq by auto 20 with oblivious. rewrite H1.
    rewrite app_nil_r. revert H1. run_block o; intros H; try discriminate H; reflexivity. }
  destruct (run_after_acquire o q r w Hr Ha) as [Hres Hsink].
  rewrite Hf in Hres, Hsink. rewrite Hs in Hsink.
  split; [exact Hres|]. split.
  - by rewrite run_page_calls, Hd.
  - rewrite Hsink. by rewrite app_nil_r.
Qed.

Lemma refused_login_run_witness :
  is_running MarathonRobot = false /\
  acquires wrong_password MarathonRobot /\
  fate (step wrong_password batch 1) = Return false /\
  result_of (run_marathon wrong_password batch MarathonRobot nothing) = Value false.
Proof.
  assert (Ha : acquires wrong_password MarathonRobot) by reflexivity.
  assert (H1 : fate (step wrong_password batch 1) = Return false) by reflexivity.
  split; [reflexivity|]. split; [exact Ha|]. split; [exact H1|].
  exact (proj1 (refused_login_run wrong_password batch MarathonRobot nothing false
                  eq_refl Ha H1)).
Defined.

(** X17: [cleanup] asks the browser to close when the robot holds
    one, and then the engine to stop when it holds one -- unless
    closing the browser raised, which leaves the engine running.  It
    emits nothing, forgets both handles in every case, and a second
    [cleanup] does nothing. *)
Theorem cleanup_closes_then_forgets (o o' : oracle) (r : robot) (w : world) :
  let out := run_cleanup o r w in
  fst out = RobotObj None None (is_running r) /\
  ops (snd out) = ops w ++ cleanup_ops o r /\
  sink (snd out) = sink w /\
  calls (snd out) = calls w /\
  run_cleanup o' (fst out) (snd out) = out.
Proof.
  cbv zeta. rewrite !cleanup_behaviour. cbn [fst snd cleanup_ops browser playwright map].
  unfold ops, sink, calls. cbn [history fresh is_running].
  rewrite operations_app, events_app, page_calls_app.
  rewrite operations_did, events_did, page_calls_did, !app_nil_r. done.
Qed.

(** X18: the request a worker is started with is complete: its
    serials are the cleaned lines of the text and there is at least
    one, the credentials are the ones of the event and neither is
    empty, and the product is not empty -- it is the one of the event,
    or, when the event names none, the one detected from the first
    serial. *)
Theorem accepted_request_is_complete (data : payload) (q : request) :
  handle_marathon data = inr q ->
  Robot.serials q = clean_serials (serials_text data) /\
  Robot.serials q <> [] /\
  odoo_email q = email_field data /\ odoo_email q <> ""%string /\
  odoo_password q = password_field data /\ odoo_password q <> ""%string /\
  product q <> ""%string /\
  (if String.eqb (product_field data) ""
   then exists first, head (Robot.serials q) = Some first /\
                      detect_product first = Some (product q)
   else product q = product_field data).
Proof.
  unfold handle_marathon.
  destruct (clean_serials (serials_text data)) as [|first rest] eqn:Hc; [discriminate|].
  destruct (String.eqb (product_field data) "") eqn:Hp.
  - destruct (detect_product first) as [p|] eqn:Hd; [|discriminate].
    destruct (String.eqb_spec p "") as [->|Hne]; [discriminate|].
    destruct (String.eqb_spec (email_field data) "") as [He|He]; [discriminate|].
    destruct (String.eqb_spec (password_field data) "") as [Hw|Hw]; [discriminate|].
    intros [= <-]. cbn. repeat split; try done. by exists first.
  - destruct (String.eqb_spec (product_field data) "") as [Hq|Hq]; [discriminate|].
    destruct (String.eqb_spec (email_field data) "") as [He|He]; [discriminate|].
    destruct (String.eqb_spec (password_field data) "") as [Hw|Hw]; [discriminate|].
    intros [= <-]. cbn. repeat split; done.
Qed.

Lemma accepted_request_is_complete_witness :
  handle_marathon order = inr batch /\
  Robot.serials batch = clean_serials (serials_text order) /\
  product batch <> ""%string.
Proof.
  assert (H : handle_marathon order = inr batch) by reflexivity.
  destruct (accepted_request_is_complete order batch H) as (Hs & _ & _ & _ & _ & _ & Hp & _).
  split; [exact H|]. split; [exact Hs | exact Hp].
Defined.

(** X19: an event is refused exactly when no serial is left after
    cleaning, or it names no product and none is detected from the
    first serial, or the e-mail or the password is empty.  Every
    refusal is one error status followed by a failed completion. *)
Theorem refused_event (data : payload) :
  let cleaned := clean_serials (serials_text data) in
  ((exists replies, handle_marathon data = inl replies) <->
   cleaned = [] \/
   (product_field data = ""%string /\
    exists first, head cleaned = Some first /\ detect_product first = None) \/
   email_field data = ""%string \/
   password_field data = ""%string) /\
  (forall replies, handle_marathon data = inl replies ->
   exists text, replies = [Status (Event text Error); MarathonComplete false None]).
Proof.
  cbv zeta. unfold handle_marathon.
  destruct (clean_serials (serials_text data)) as [|first rest] eqn:Hc.
  { split; [|intros ? [= <-]; eauto]. split; eauto. }
  destruct (String.eqb_spec (product_field data) "") as [Hq|Hq].
  - destruct (detect_product first) as [p|] eqn:Hd.
    + pose proof (detect_product_named _ _ Hd) as Hn.
      destruct (String.eqb_spec p "") as [->|_]; [done|].
      destruct (String.eqb_spec (email_field data) "") as [He|He];
        [split; [split; eauto 6 | intros ? [= <-]; eauto]|].
      destruct (String.eqb_spec (password_field data) "") as [Hw|Hw];
        [split; [split; eauto 6 | intros ? [= <-]; eauto]|].
      cbn [head]. split; [|discriminate]. split.
      * intros [? [=]].
      * intros [[=]|[(_ & f & [= <-] & Hf)|[?|?]]]; congruence.
    + split; [|intros ? [= <-]; eauto]. split; [|eauto].
      intros _. right. left. split; [done|]. by exists first.
  - rewrite (proj2 (String.eqb_neq _ _) Hq).
    destruct (String.eqb_spec (email_field data) "") as [He|He];
      [split; [split; eauto 6 | intros ? [= <-]; eauto]|].
    destruct (String.eqb_spec (password_field data) "") as [Hw|Hw];
      [split; [split; eauto 6 | intros ? [= <-]; eauto]|].
    cbn [head]. split; [|discriminate]. split.
    + intros [? [=]].
    + intros [[=]|[(? & _)|[?|?]]]; congruence.
Qed.


(** X21: a worker asks every browser and every page it creates to
    close before it ends, whatever the browser does in between. *)
Theorem run_task_closes_its_own (o : oracle) (e : env) (q : request) (p : process) :
  exists added,
    ops (outer (run_task o e q p)) = ops (outer p) ++ added /\
    closes_its_own added.
Proof. apply run_task_ops. Qed.

Import Verify Labels VerifyFacts LabelFacts.





(** X24: the keys of the results are the serials that were given, no
    more and no less, with or without credentials and whatever the
    service answers. *)
Theorem verify_covers_every_serial (net : nat -> reply) (serials : list string)
        (session_cookie csrf_token : string) :
  dom (results_of (verify_serials_api net serials session_cookie csrf_token)) =
    list_to_set serials /\
  size (results_of (verify_serials_api net serials session_cookie csrf_token)) <=
    length serials.
Proof.
  split; [|apply verify_results_size].
  unfold verify_serials_api.
  destruct (String.eqb session_cookie "" || String.eqb csrf_token ""); cbn [results_of].
  - unfold not_verified. rewrite not_verified_dom_from, dom_empty_L.
    by rewrite (left_id_L _ _).
  - rewrite verify_loop_dom, dom_empty_L. by rewrite (left_id_L _ _).
Qed.

(** X25: a serial passes exactly when the service answers 200 with at
    least one row, and the status text of the first row contains
    "In Compliance" and not "Issue" -- or is the text "PASS" itself. *)
Theorem verdict_pass_criterion (r : reply) :
  verdict r = "PASS"%string <->
  exists row rest,
    r = Answers 200 (Rows (row :: rest)) /\
    (contains "In Compliance" (default ""%string row)
       && negb (contains "Issue" (default ""%string row)) = true \/
     default ""%string row = "PASS"%string).
Proof.
  split.
  - destruct r as [e|code [e|[|row rest]]]; cbn [verdict]; try discriminate.
    + destruct (Nat.eqb_spec code 200); discriminate.
    + destruct (Nat.eqb_spec code 200); discriminate.
    + destruct (Nat.eqb_spec code 200) as [->|]; [|discriminate].
      destruct (contains "In Compliance" (default ""%string row)
                && negb (contains "Issue" (default ""%string row))) eqn:Hc.
      * intros _. exists row, rest. split; [reflexivity|by left].
      * destruct (String.eqb (default ""%string row) ""); [discriminate|].
        intros H. exists row, rest. split; [reflexivity|by right].
  - intros (row & rest & -> & [Hc|Hp]); cbn [verdict Nat.eqb].
    + by rewrite Hc.
    + rewrite Hp. reflexivity.
Qed.

(** X26: the summary [handle_verify] sends adds up.  The total is the
    number of cleaned lines, the number passed is at most the number
    of results, which is at most the total, and the number failed is
    the total less the number passed, never negative. *)
Theorem verify_summary_adds_up (net : nat -> reply) (data : verify_data)
        (results : gmap string string) (total passed : nat) (failed : Z) :
  VerifyComplete results total passed failed ∈ handle_verify net data ->
  total = length (clean_serials (Verify.serials_text data)) /\
  passed <= size results <= total /\
  failed = (Z.of_nat total - Z.of_nat passed)%Z /\
  (0 <= failed)%Z.
Proof.
  unfold handle_verify.
  destruct (clean_serials (Verify.serials_text data)) as [|first rest] eqn:Hc.
  { intros H. apply list_elem_of_singleton in H. discriminate H. }
  intros H. apply elem_of_cons in H as [H|H]; [discriminate H|].
  apply list_elem_of_singleton in H. injection H as -> -> -> ->.
  pose proof (count_passed_size
                (results_of (verify_serials_api net (first :: rest)
                               (session_cookie_field data) (csrf_token_field data)))) as H1.
  pose proof (verify_results_size net (first :: rest)
                (session_cookie_field data) (csrf_token_field data)) as H2.
  cbn [length] in *. repeat split; lia.
Qed.

Lemma verify_summary_adds_up_witness :
  exists results,
    VerifyComplete results 3 0 3 ∈ handle_verify compliance to_verify /\
    size results <= 3.
Proof.
  eexists.
  assert (H : VerifyComplete
                (results_of (verify_serials_api compliance ["SN001"; "SN002"; "SN001"]%string
                               "cookie" "token")) 3 0 3
              ∈ handle_verify compliance to_verify).
  { apply elem_of_cons. right. apply list_elem_of_singleton.
    vm_compute. reflexivity. }
  split; [exact H|].
  exact (proj2 (proj1 (proj2 (verify_summary_adds_up compliance to_verify _ 3 0 3 H)))).
Defined.

(** X27: the grid of the label sheet.  With at least one column and
    one row the loop never raises; a page holds at most [cols * rows]
    labels, the label number [k] of a page is in column [k mod cols]
    of row [k / cols], inside the grid; and the labels, read page by
    page, are the serials in their order. *)
Theorem label_sheet_grid (cols rows : nat) (serials : list string) :
  0 < cols -> 0 < rows ->
  exists l,
    layout cols rows serials = Some l /\
    Forall (fun pg =>
              length pg <= cols * rows /\
              forall k x, pg !! k = Some x ->
                          cell x = (k mod cols, k / cols) /\
                          k mod cols < cols /\ k / cols < rows)
           (pages l) /\
    concat (map (map snd) (pages l)) = serials.
Proof.
  intros Hc Hr.
  assert (Hcap : 0 < cols * rows) by nia.
  destruct (layout_from_pages cols rows serials 0 []) as (l & Hl & Hp & Hs).
  - exact Hcap.
  - split; [simpl; lia|]. intros k x Hx. done.
  - intros _. apply Nat.Div0.mod_0_l.
  - simpl. lia.
  - exists l. split; [exact Hl|]. split; [|exact Hs].
    eapply Forall_impl; [exact Hp|]. intros pg [Hlen Hcells].
    split; [exact Hlen|]. intros k x Hx. split; [by apply Hcells|].
    apply lookup_lt_Some in Hx. split.
    + apply Nat.mod_upper_bound. lia.
    + apply Nat.Div0.div_lt_upper_bound. lia.
Qed.

Lemma label_sheet_grid_witness :
  0 < 3 /\ 0 < 8 /\
  exists l, layout 3 8 ["SN001"; "SN002"; "SN003"; "SN004"]%string = Some l /\
            concat (map (map snd) (pages l)) = ["SN001"; "SN002"; "SN003"; "SN004"]%string.
Proof.
  assert (Hc : 0 < 3) by lia. assert (Hr : 0 < 8) by lia.
  split; [exact Hc|]. split; [exact Hr|].
  destruct (label_sheet_grid 3 8 ["SN001"; "SN002"; "SN003"; "SN004"]%string Hc Hr)
    as (l & Hl & _ & Hs).
  exists l. split; [exact Hl | exact Hs].
Defined.
